(** * go-hterrors: a shallow embedding of [errors.go] and its specification

    The Go package [hterrors] turns a rejected HTTP response into an error
    value whose text digests the response body.  This development embeds
    the functions of [errors.go] ([StatusError.Error], [extractMessage],
    [CheckResponse], [CheckStatus], [CheckStatusOneOf], [Check] and
    [DefaultResponseChecker]) and proves the properties the specification
    states about them.

    Conventions.
    - A Go [string] is a Rocq [string]: a sequence of bytes.
    - A Go [int] is a [Z]; the package never does arithmetic on one, so no
      wrap-around is involved.
    - A pointer that may be nil is an [option]; dereferencing nil panics,
      which the [outcome] type records.
    - The functions of the Go standard library that the package calls are
      modelled in modules named after their packages ([strings], [fmt],
      [sort], [regexp], [io], [http]).  Four library entry points
      are too large to transcribe ([mime.ParseMediaType],
      [html2text.HTML2Text], [json.Decoder.Decode] and the [%v] verb on
      decoded JSON values); they are the fields of the class [GoLib].  The
      general statements hold for all its instances; the examples run on
      the reference instance [Ref.lib]. *)

From stdpp Require Import base tactics option list strings pretty sorting gmap.
From Stdlib Require Import ZArith Ascii Lia.

Local Open Scope Z_scope.

(** ** Package [strings] *)

Module strings.

(** [strings.HasPrefix(s, prefix)] *)
Fixpoint HasPrefix (s prefix : string) {struct prefix} : bool :=
  match prefix with
  | "" => true
  | String p prefix' =>
      match s with
      | "" => false
      | String c s' => if decide (c = p) then HasPrefix s' prefix' else false
      end
  end.

(** [strings.HasSuffix(s, suffix)] *)
Definition HasSuffix (s suffix : string) : bool :=
  HasPrefix (String.rev s) (String.rev suffix).

(** [strings.Contains(s, substr)]: [substr] occurs somewhere in [s]. *)
Fixpoint Contains (s substr : string) : bool :=
  HasPrefix s substr ||
  match s with
  | "" => false
  | String _ s' => Contains s' substr
  end.

(** [strings.IndexRune(s, r)] for a rune [r] below [utf8.RuneSelf], which
    is [strings.IndexByte]: the index of the first byte equal to [r], or
    [None] where Go returns -1. *)
Fixpoint IndexRune (s : string) (r : ascii) : option nat :=
  match s with
  | "" => None
  | String c s' =>
      if decide (c = r) then Some 0%nat else S <$> IndexRune s' r
  end.

(** The slice expression [s[n:]]. *)
Fixpoint slice_from (n : nat) (s : string) : string :=
  match n, s with
  | O, _ => s
  | S n', String _ s' => slice_from n' s'
  | S _, "" => ""
  end.

(** The slice expression [s[:n]]. *)
Fixpoint slice_to (n : nat) (s : string) : string :=
  match n, s with
  | S n', String c s' => String c (slice_to n' s')
  | _, _ => ""
  end.

(** [strings.Join(elems, sep)] *)
Fixpoint Join (elems : list string) (sep : string) : string :=
  match elems with
  | [] => ""
  | [e] => e
  | e :: rest => e +:+ sep +:+ Join rest sep
  end.

(** Byte strings written out by byte value. *)
Definition bytes (l : list nat) : string :=
  foldr (λ n s, String (ascii_of_nat n) s) "" l.

(** The UTF-8 encodings of the code points for which [unicode.IsSpace]
    holds: U+0009..U+000D, U+0020, U+0085, U+00A0, U+1680,
    U+2000..U+200A, U+2028, U+2029, U+202F, U+205F and U+3000. *)
Definition unicode_space : list string :=
  bytes <$> [ [9]; [10]; [11]; [12]; [13]; [32];
              [194; 133]; [194; 160]; [225; 154; 128];
              [226; 128; 128]; [226; 128; 129]; [226; 128; 130];
              [226; 128; 131]; [226; 128; 132]; [226; 128; 133];
              [226; 128; 134]; [226; 128; 135]; [226; 128; 136];
              [226; 128; 137]; [226; 128; 138];
              [226; 128; 168]; [226; 128; 169]; [226; 128; 175];
              [226; 129; 159]; [227; 128; 128] ]%nat.

(** Drop from the front of [s] every leading occurrence of a string of
    [tbl]; [skip] counts the bytes of the current occurrence that are
    still to be dropped. *)
Fixpoint trim_go (tbl : list string) (skip : nat) (s : string) : string :=
  match s with
  | "" => ""
  | String _ s' =>
      match skip with
      | S n => trim_go tbl n s'
      | O =>
          match List.find (HasPrefix s) tbl with
          | Some p => trim_go tbl (String.length p - 1) s'
          | None => s
          end
      end
  end.

(** [strings.TrimSpace(s)]: [s] without its leading and trailing white
    space, as [unicode.IsSpace] defines it.  A rune is white space at the
    front (at the back) of a string exactly when its UTF-8 encoding is a
    prefix (a suffix) of the string, also when the string is not valid
    UTF-8, so the trimming is done on bytes. *)
Definition TrimSpace (s : string) : string :=
  String.rev
    (trim_go (String.rev <$> unicode_space) 0
       (String.rev (trim_go unicode_space 0 s))).

End strings.

(** What the specification calls "contains as a substring". *)
Definition substring_of (sub s : string) : Prop :=
  ∃ pre post, s = pre +:+ sub +:+ post.

(** ** Package [fmt] *)

Module fmt.

(** [fmt.Sprintf("%d", n)]: the decimal text of [n], with a leading
    minus sign for a negative number. *)
Definition Sprintf_d (n : Z) : string := pretty n.

End fmt.

(** ** Package [sort] *)

Module sort.

(** [sort.Strings(x)] sorts in increasing order of Go's [<] on strings,
    which compares byte by byte.  Go sorts in place with pdqsort; the
    result of any sorting algorithm is the same list (see
    [sort_Strings_unique]), and merge sort stands for it here. *)
Definition Strings (x : list string) : list string :=
  merge_sort String.le x.

End sort.

(** ** Package [regexp] *)

Module regexp.

(** The regular expressions that the package compiles. *)
Inductive Regexp :=
| Lit (c : ascii)                (* a literal byte *)
| Class (p : ascii → bool)       (* a character class *)
| Cat (r1 r2 : Regexp)           (* r1 r2 *)
| Quest (r : Regexp)             (* r? , greedy *)
| Plus (r : Regexp).             (* r+ , greedy *)

(** The iterations of a greedy [r+], where [step] matches [r] once:
    after each match of [r], one more iteration is tried first, and the
    continuation [k] only when that fails.  [fuel] bounds the number of
    further iterations. *)
Fixpoint iterate (step : string → (string → option string) → option string)
    (k : string → option string) (fuel : nat) (s : string) : option string :=
  step s (λ s',
    match fuel with
    | O => k s'
    | S fuel' =>
        match iterate step k fuel' s' with
        | Some rest => Some rest
        | None => k s'
        end
    end).

(** A backtracking matcher in continuation-passing style: [run r s k]
    matches [r] at the front of [s] and hands the rest to [k], trying the
    alternatives in the order of preference of Go's leftmost-first
    semantics (a greedy operator tries to match its operand first).  It
    returns what is left of [s] after the first match that [k] accepts.
    The iterations of [Plus] are bounded by the length of the input,
    which is enough when its operand cannot match the empty string. *)
Fixpoint run (r : Regexp) (s : string) (k : string → option string)
    : option string :=
  match r with
  | Lit c =>
      match s with
      | String c' s' => if decide (c' = c) then k s' else None
      | "" => None
      end
  | Class p =>
      match s with
      | String c' s' => if p c' then k s' else None
      | "" => None
      end
  | Cat r1 r2 => run r1 s (λ s', run r2 s' k)
  | Quest r1 =>
      match run r1 s k with
      | Some rest => Some rest
      | None => k s
      end
  | Plus r1 => iterate (run r1) k (String.length s) s
  end.

(** The length of the match of [r] at the front of [s], if there is one. *)
Definition match_at (r : Regexp) (s : string) : option nat :=
  rest ← run r s Some; Some (String.length s - String.length rest)%nat.

(** Replace the successive leftmost matches of [r]; [skip] counts the
    bytes of the current match that are still to be passed over. *)
Fixpoint replace_go (r : Regexp) (repl : string) (skip : nat) (s : string)
    : string :=
  match s with
  | "" => ""
  | String c s' =>
      match skip with
      | S n => replace_go r repl n s'
      | O =>
          match match_at r s with
          | Some (S n) => repl +:+ replace_go r repl n s'
          | _ => String c (replace_go r repl 0 s')
          end
      end
  end.

(** [re.ReplaceAllString(src, repl)] for an expression [re] that does not
    match the empty string and a replacement without [$]. *)
Definition ReplaceAllString (re : Regexp) (src repl : string) : string :=
  replace_go re repl 0 src.

(** The Perl class [\s] of RE2: tab, line feed, form feed, carriage
    return and space. *)
Definition perl_space (c : ascii) : bool :=
  match c with
  | "009" | "010" | "012" | "013" | " " => true
  | _ => false
  end%char.

End regexp.

(** ** Package [io] *)

Module io.

(** What has been done to a stream: a pass that read [data] from it, or
    a call of [Close]. *)
Inductive Event :=
| EvRead (data : string)
| EvClose.

#[global] Instance Event_eq_dec : EqDecision Event.
Proof. solve_decision. Defined.

(** The state of an [io.ReadCloser]: the bytes that reading it will still
    deliver, and the history of what was done to it, oldest first.  What
    reading delivers after [Close] depends on the implementation; the
    package never reads a stream that it has closed. *)
Record ReadCloser := {
  unread : string;
  events : list Event;
}.

(** The stream after it was read to its end. *)
Definition drained (src : ReadCloser) : ReadCloser :=
  {| unread := ""; events := events src ++ [EvRead (unread src)] |}.

(** [io.Copy(&out, src)] into a fresh [strings.Builder]: read [src] to
    its end and return what was read. *)
Definition Copy (src : ReadCloser) : string * ReadCloser :=
  (unread src, drained src).

(** A reader such as [json.Decoder] that takes the first [n] bytes off
    the stream. *)
Definition consume (src : ReadCloser) (n : nat) : ReadCloser :=
  {| unread := strings.slice_from n (unread src);
     events := events src ++ [EvRead (strings.slice_to n (unread src))] |}.

(** [src.Close()] *)
Definition Close (src : ReadCloser) : ReadCloser :=
  {| unread := unread src; events := events src ++ [EvClose] |}.

End io.

(** ** Package [net/http] *)

Module http.

(** [http.StatusText(code)]: the reason phrase of the status codes that
    [net/http] knows, the empty string for every other code. *)
Definition StatusText (code : Z) : string :=
  match code with
  | 100 => "Continue"
  | 101 => "Switching Protocols"
  | 102 => "Processing"
  | 103 => "Early Hints"
  | 200 => "OK"
  | 201 => "Created"
  | 202 => "Accepted"
  | 203 => "Non-Authoritative Information"
  | 204 => "No Content"
  | 205 => "Reset Content"
  | 206 => "Partial Content"
  | 207 => "Multi-Status"
  | 208 => "Already Reported"
  | 226 => "IM Used"
  | 300 => "Multiple Choices"
  | 301 => "Moved Permanently"
  | 302 => "Found"
  | 303 => "See Other"
  | 304 => "Not Modified"
  | 305 => "Use Proxy"
  | 307 => "Temporary Redirect"
  | 308 => "Permanent Redirect"
  | 400 => "Bad Request"
  | 401 => "Unauthorized"
  | 402 => "Payment Required"
  | 403 => "Forbidden"
  | 404 => "Not Found"
  | 405 => "Method Not Allowed"
  | 406 => "Not Acceptable"
  | 407 => "Proxy Authentication Required"
  | 408 => "Request Timeout"
  | 409 => "Conflict"
  | 410 => "Gone"
  | 411 => "Length Required"
  | 412 => "Precondition Failed"
  | 413 => "Request Entity Too Large"
  | 414 => "Request URI Too Long"
  | 415 => "Unsupported Media Type"
  | 416 => "Requested Range Not Satisfiable"
  | 417 => "Expectation Failed"
  | 418 => "I'm a teapot"
  | 421 => "Misdirected Request"
  | 422 => "Unprocessable Entity"
  | 423 => "Locked"
  | 424 => "Failed Dependency"
  | 425 => "Too Early"
  | 426 => "Upgrade Required"
  | 428 => "Precondition Required"
  | 429 => "Too Many Requests"
  | 431 => "Request Header Fields Too Large"
  | 451 => "Unavailable For Legal Reasons"
  | 500 => "Internal Server Error"
  | 501 => "Not Implemented"
  | 502 => "Bad Gateway"
  | 503 => "Service Unavailable"
  | 504 => "Gateway Timeout"
  | 505 => "HTTP Version Not Supported"
  | 506 => "Variant Also Negotiates"
  | 507 => "Insufficient Storage"
  | 508 => "Loop Detected"
  | 510 => "Not Extended"
  | 511 => "Network Authentication Required"
  | _ => ""
  end.

(** The struct [http.Request], as far as the package looks at it (named
    [Request_t] because [Request] is also a field of [Response]): the
    method, and the pointer [URL], which is represented by the text that
    [URL.String()] renders ([None] for a nil pointer). *)
Record Request_t := {
  Method : string;
  URL : option string;
}.

(** [http.Response], as far as the package looks at it.  [Header] is Go's
    [map[string][]string]; [Body] is the interface value [io.ReadCloser]
    with the state of the stream behind it, [None] when it is nil;
    [Request] is a pointer, [None] when it is nil. *)
Record Response := {
  StatusCode : Z;
  Header : gmap string (list string);
  Body : option io.ReadCloser;
  Request : option Request_t;
}.

(** [h.Get(key)] for a key that is already in canonical form, as
    ["Content-Type"] is: the first value stored under the key, the empty
    string when there is none. *)
Definition Header_Get (h : gmap string (list string)) (key : string) : string :=
  match h !! key with
  | Some (v :: _) => v
  | _ => ""
  end.

(** The response with its body stream in a new state. *)
Definition with_body (resp : Response) (b : io.ReadCloser) : Response :=
  {| StatusCode := StatusCode resp; Header := Header resp;
     Body := Some b; Request := Request resp |}.

End http.

(** ** The error model ([errors.go], lines 22-52) *)

(** [type StatusError struct { StatusCode int; Message string }] *)
Record StatusError := {
  StatusCode : Z;
  Message : string;
}.

(** [func (err *StatusError) Error() string] *)
Definition Error (err : StatusError) : string :=
  let code := fmt.Sprintf_d (StatusCode err) in
  let text := http.StatusText (StatusCode err) in
  if strings.Contains (Message err) code && strings.Contains (Message err) text
  then Message err
  else if decide (Message err = "")
  then code +:+ " " +:+ text
  else code +:+ " " +:+ text +:+ ": " +:+ Message err.

(** ** Errors and panics *)

(** A Go value of the interface type [error] that is not nil.  The package
    builds [*url.Error] values around a [*StatusError]; every other
    implementation (what the HTTP transport or the JSON decoder report) is
    a [ForeignError], known by the text its [Error()] method returns. *)
Inductive error :=
| ForeignError (text : string)
| StatusErr (e : StatusError)
| url_Error (Op URL : string) (Err : error).

#[global] Instance StatusError_eq_dec : EqDecision StatusError.
Proof. solve_decision. Defined.
#[global] Instance error_eq_dec : EqDecision error.
Proof. solve_decision. Defined.

(** The result of running Go code that may panic (here: on a nil pointer
    or a nil interface). *)
Inductive outcome (A : Type) :=
| Done (a : A)
| Panic.
Arguments Done {A} a.
Arguments Panic {A}.

Definition bind {A B} (m : outcome A) (f : A → outcome B) : outcome B :=
  match m with
  | Done a => f a
  | Panic => Panic
  end.

Notation "x ←! m ; k" := (bind m (λ x, k))
  (at level 20, m at level 100, k at level 200, only parsing).
Notation "' p ←! m ; k" := (bind m (λ x, match x with p => k end))
  (at level 20, p pattern, m at level 100, k at level 200, only parsing).

(** Using a pointer or an interface value that may be nil. *)
Definition deref {A} (p : option A) : outcome A :=
  match p with
  | Some a => Done a
  | None => Panic
  end.

(** ** The library functions that are not transcribed *)

(** The result of [json.NewDecoder(r).Decode(&doc)] for
    [var doc map[string]interface{}]: the map that [doc] holds afterwards
    (empty when it is still nil), or the text of the error. *)
Inductive DecodeResult (V : Type) :=
| DecodeOk (doc : gmap string V)
| DecodeErr (err : string).
Arguments DecodeOk {V} doc.
Arguments DecodeErr {V} err.

Class GoLib := {
  (** [mime.ParseMediaType(v)]: the media type and the error, if any (the
      parameters are dropped by the caller). *)
  mime_ParseMediaType : string → string * option string;
  (** The empty header value is not a media type
      ("mime: no media type"). *)
  mime_ParseMediaType_empty : is_Some (mime_ParseMediaType "").2;
  (** [html2text.HTML2Text(html)] *)
  html2text_HTML2Text : string → string;
  (** The values of type [interface{}] that the JSON decoder produces. *)
  json_Value : Type;
  (** Decoding the stream whose unread bytes are given: the result, and
      how many bytes the decoder took off the stream. *)
  json_Decode : string → DecodeResult json_Value * nat;
  (** [fmt.Sprintf("%v", v)] *)
  fmt_Sprintf_v : json_Value → string;
  (** The order in which a [for k := range doc] loop visits the keys; Go
      leaves it unspecified, but every key is visited once. *)
  map_range : gmap string json_Value → list string;
  map_range_keys : ∀ doc, map_range doc ≡ₚ (map_to_list doc).*1;
}.

(** ** The package ([errors.go]) *)

Section hterrors.
Context `{GoLib}.

(** [type ResponseChecker func(resp *http.Response) bool]; a checker looks at
    the response and changes nothing. *)
Definition ResponseChecker := http.Response → bool.

(** [func DefaultResponseChecker(resp *http.Response) bool] *)
Definition DefaultResponseChecker : ResponseChecker := λ resp,
  (http.StatusCode resp >=? 200) && (http.StatusCode resp <? 300).

(** [var nlre = regexp.MustCompile(`(\r?\n)+`)] and
    [var space = regexp.MustCompile(`\s\s+`)] *)
Definition nlre : regexp.Regexp :=
  regexp.Plus (regexp.Cat (regexp.Quest (regexp.Lit "013")) (regexp.Lit "010")).
Definition space : regexp.Regexp :=
  regexp.Cat (regexp.Class regexp.perl_space)
             (regexp.Plus (regexp.Class regexp.perl_space)).

(** Lines 60-64 of [extractMessage]: the media type of the response. *)
Definition mediaType (resp : http.Response) : string :=
  let '(mtype, err) :=
    mime_ParseMediaType (http.Header_Get (http.Header resp) "Content-Type") in
  match err with
  | Some _ => "text/plain" (* assume text *)
  | None => mtype
  end.

(** Lines 71-75 of [extractMessage]: a vendor type
    [application/vnd.*+type] is changed back to [application/type]. *)
Definition vendorType (mtype : string) : string :=
  if strings.HasPrefix mtype "application/vnd." then
    match strings.IndexRune mtype "+" with
    | Some i => "application/" +:+ strings.slice_from (i + 1) mtype
    | None => mtype
    end
  else mtype.

(** [doc[k]] printed with [%v]; a key that is not in the map gives the
    nil interface, which prints as [<nil>]. *)
Definition index_v (doc : gmap string json_Value) (k : string) : string :=
  match doc !! k with
  | Some v => fmt_Sprintf_v v
  | None => "<nil>"
  end.

(** [func extractMessage(resp *http.Response) string]; the result is the
    message and the response with its body in its new state. *)
Definition extractMessage (resp : http.Response)
    : outcome (string * http.Response) :=
  let mtype := mediaType resp in
  let mtype := vendorType mtype in
  if decide (mtype = "text/plain") then
    body ←! deref (http.Body resp);
    let '(out, body) := io.Copy body in
    Done (out, http.with_body resp body)
  else if decide (mtype = "text/html") then
    body ←! deref (http.Body resp);
    let '(out, body) := io.Copy body in
    let text := strings.TrimSpace (html2text_HTML2Text out) in
    Done (regexp.ReplaceAllString space
            (regexp.ReplaceAllString nlre text ": ") " ",
          http.with_body resp body)
  else if decide (mtype = "application/json") then
    body ←! deref (http.Body resp);
    let '(res, n) := json_Decode (io.unread body) in
    let resp := http.with_body resp (io.consume body n) in
    match res with
    | DecodeErr err =>
        Done ("<invalid json in response body: " +:+ err +:+ ">", resp)
    | DecodeOk doc =>
        let keys := sort.Strings (map_range doc) in
        let fields := (λ k, k +:+ ": " +:+ index_v doc k) <$> keys in
        Done (strings.Join fields ", ", resp)
    end
  else Done ("", resp).

(** [func CheckResponse(resp *http.Response, checker ResponseChecker) error];
    the result is the error ([None] for nil) and the response in its new
    state. *)
Definition CheckResponse (resp : http.Response) (checker : ResponseChecker)
    : outcome (option error * http.Response) :=
  if checker resp then Done (None, resp)
  else
    '(msg, resp) ←! extractMessage resp;
    let err := {| StatusCode := http.StatusCode resp; Message := msg |} in
    match http.Request resp with
    | None =>
        Done (Some (url_Error "<unknown method>" "<unknown request>"
                      (StatusErr err)), resp)
    | Some req =>
        url ←! deref (http.URL req);
        Done (Some (url_Error (http.Method req) url (StatusErr err)), resp)
    end.

(** [func CheckStatus(resp *http.Response) error] *)
Definition CheckStatus (resp : http.Response)
    : outcome (option error * http.Response) :=
  CheckResponse resp DefaultResponseChecker.

(** The closure [checker] of [CheckStatusOneOf]: the loop over
    [expectedStatuses]. *)
Fixpoint oneOfChecker (expectedStatuses : list Z) : ResponseChecker :=
  λ resp,
    match expectedStatuses with
    | [] => false
    | status :: rest =>
        if decide (status = http.StatusCode resp) then true
        else oneOfChecker rest resp
    end.

(** [func CheckStatusOneOf(resp *http.Response, expectedStatuses ...int) error] *)
Definition CheckStatusOneOf (resp : http.Response) (expectedStatuses : list Z)
    : outcome (option error * http.Response) :=
  let checker := oneOfChecker expectedStatuses in
  CheckResponse resp checker.

(** What [Check] returns, and the state in which it leaves the response
    object that [resp] points to. *)
Record CheckResult := {
  ret_resp : option http.Response;
  ret_err : option error;
  heap : option http.Response;
}.

(** [resp.Body.Close()] under [if resp != nil && resp.Body != nil]. *)
Definition closeBody (resp : option http.Response) : option http.Response :=
  match resp with
  | Some r =>
      match http.Body r with
      | Some b => Some (http.with_body r (io.Close b))
      | None => resp
      end
  | None => None
  end.

(** [func Check(resp *http.Response, err error)], which returns a response
    pointer and an error. *)
Definition Check (resp : option http.Response) (err : option error)
    : outcome CheckResult :=
  '(err, resp) ←!
    match err with
    | None =>
        r ←! deref resp;
        '(err, r) ←! CheckStatus r;
        Done (err, Some r)
    | Some _ => Done (err, resp)
    end;
  match err with
  | Some e =>
      Done {| ret_resp := None; ret_err := Some e; heap := closeBody resp |}
  | None =>
      Done {| ret_resp := resp; ret_err := None; heap := resp |}
  end.

End hterrors.

(** ** A reference instance of [GoLib]

    The examples run on this instance.  It agrees with the Go libraries on
    the inputs the examples use and reports an error, under a stand-in
    text, on the others:
    - [ParseMediaType] on ASCII header values without parameters;
    - [Decode] on streams that hold [null] or one flat JSON object whose
      values are strings (with the two-character escapes), integers of at
      most six digits, [true], [false] or [null], and that are handed to
      the decoder in one read.
    [HTML2Text] is a stand-in that only deletes the tags. *)

Module Ref.

(** *** [mime.ParseMediaType] *)

Definition lower (c : ascii) : ascii :=
  let n := nat_of_ascii c in
  if bool_decide (65 ≤ n ≤ 90)%nat then ascii_of_nat (n + 32) else c.

Fixpoint ToLower (s : string) : string :=
  match s with
  | "" => ""
  | String c s' => String (lower c) (ToLower s')
  end.

Definition isTokenChar (c : ascii) : bool :=
  let n := nat_of_ascii c in
  bool_decide (32 < n < 127)%nat &&
  negb (strings.Contains (String "034" "()<>@,;:\/[]?=") (String c "")).

(** [consumeToken]: the longest prefix of token characters, and the rest. *)
Fixpoint consumeToken (s : string) : string * string :=
  match s with
  | "" => ("", "")
  | String c s' =>
      if isTokenChar c
      then let '(tok, rest) := consumeToken s' in (String c tok, rest)
      else ("", s)
  end.

Definition checkMediaTypeDisposition (s : string) : option string :=
  let '(typ, rest) := consumeToken s in
  if decide (typ = "") then Some "mime: no media type"
  else if decide (rest = "") then None
  else if negb (strings.HasPrefix rest "/")
  then Some "mime: expected slash after first token"
  else
    let '(subtype, rest) := consumeToken (strings.slice_from 1 rest) in
    if decide (subtype = "") then Some "mime: expected token after slash"
    else if decide (rest = "") then None
    else Some "mime: unexpected content after media subtype".

Definition ParseMediaType (v : string) : string * option string :=
  if strings.Contains v ";" then ("", Some "parameters are not modelled")
  else
    let mediatype := strings.TrimSpace (ToLower v) in
    match checkMediaTypeDisposition mediatype with
    | Some err => ("", Some err)
    | None => (mediatype, None)
    end.

(** *** [html2text.HTML2Text] (stand-in) *)

Fixpoint strip_tags (in_tag : bool) (s : string) : string :=
  match s with
  | "" => ""
  | String c s' =>
      if in_tag then strip_tags (negb (bool_decide (c = ">"%char))) s'
      else if decide (c = "<"%char) then strip_tags true s'
      else String c (strip_tags false s')
  end.

(** *** [encoding/json] and [%v] *)

Inductive Value :=
| VNil
| VBool (b : bool)
| VNumber (n : Z)
| VString (s : string).

Definition Sprintf_v (v : Value) : string :=
  match v with
  | VNil => "<nil>"
  | VBool true => "true"
  | VBool false => "false"
  | VNumber n => fmt.Sprintf_d n
  | VString s => s
  end.

Definition isSpace (c : ascii) : bool :=
  match c with
  | " " | "009" | "010" | "013" => true
  | _ => false
  end%char.

Fixpoint skip_space (s : string) : string :=
  match s with
  | String c s' => if isSpace c then skip_space s' else s
  | "" => ""
  end.

Definition errEOF : string := "unexpected EOF".
Definition errSyntax : string := "invalid character".

(** The rest of a string literal after its opening quote. *)
Fixpoint scan_string (s : string) : (string * string) + string :=
  match s with
  | "" => inr errEOF
  | String "034" s' => inl ("", s')
  | String "\" "" => inr errEOF
  | String "\" (String e s') =>
      let unescaped : option ascii :=
        match e with
        | "034" => Some "034" | "\" => Some "\" | "/" => Some "/"
        | "b" => Some "008" | "f" => Some "012" | "n" => Some "010"
        | "r" => Some "013" | "t" => Some "009"
        | _ => None
        end%char in
      match unescaped, scan_string s' with
      | Some c, inl (str, rest) => inl (String c str, rest)
      | Some _, inr err => inr err
      | None, _ => inr errSyntax
      end
  | String c s' =>
      if bool_decide (nat_of_ascii c < 32)%nat then inr errSyntax
      else
        match scan_string s' with
        | inl (str, rest) => inl (String c str, rest)
        | inr err => inr err
        end
  end.

(** The digits at the front of a string, as a number, and the rest. *)
Fixpoint scan_digits (acc : Z) (count : nat) (s : string) : Z * nat * string :=
  match s with
  | String c s' =>
      match Ascii.is_nat c with
      | Some d => scan_digits (10 * acc + Z.of_nat d) (S count) s'
      | None => (acc, count, s)
      end
  | "" => (acc, count, "")
  end.

Definition scan_number (s : string) : (Value * string) + string :=
  let '(n, count, rest) := scan_digits 0 0 s in
  let leading_zero := strings.HasPrefix s "0" && bool_decide (1 < count)%nat in
  let continues :=
    match rest with
    | String c _ => strings.Contains ".eE" (String c "")
    | "" => false
    end in
  if bool_decide (1 ≤ count ≤ 6)%nat && negb leading_zero && negb continues
  then inl (VNumber n, rest)
  else inr errSyntax.

Definition scan_value (s : string) : (Value * string) + string :=
  match s with
  | "" => inr errEOF
  | String "034" s' =>
      match scan_string s' with
      | inl (str, rest) => inl (VString str, rest)
      | inr err => inr err
      end
  | String "-" s' =>
      match scan_number s' with
      | inl (VNumber n, rest) =>
          if decide (n = 0) then inr errSyntax else inl (VNumber (- n), rest)
      | inl _ => inr errSyntax
      | inr err => inr err
      end
  | _ =>
      if strings.HasPrefix s "true" then inl (VBool true, strings.slice_from 4 s)
      else if strings.HasPrefix s "false" then inl (VBool false, strings.slice_from 5 s)
      else if strings.HasPrefix s "null" then inl (VNil, strings.slice_from 4 s)
      else if strings.HasPrefix "true" s || strings.HasPrefix "false" s
              || strings.HasPrefix "null" s then inr errEOF
      else scan_number s
  end.

(** One member [ "key" : value ] at the front of [s]. *)
Definition scan_member (s : string) : (string * Value * string) + string :=
  match s with
  | "" => inr errEOF
  | String "034" s' =>
      match scan_string s' with
      | inl (key, rest) =>
          match skip_space rest with
          | "" => inr errEOF
          | String ":" rest =>
              match scan_value (skip_space rest) with
              | inl (v, rest) => inl (key, v, rest)
              | inr err => inr err
              end
          | _ => inr errSyntax
          end
      | inr err => inr err
      end
  | _ => inr errSyntax
  end.

(** The members after the first one, up to the closing brace. *)
Fixpoint scan_members (fuel : nat) (doc : gmap string Value) (s : string)
    : DecodeResult Value :=
  match fuel with
  | O => DecodeErr errEOF
  | S fuel =>
      match skip_space s with
      | "" => DecodeErr errEOF
      | String "}" _ => DecodeOk doc
      | String "," rest =>
          match scan_member (skip_space rest) with
          | inl (key, v, rest) => scan_members fuel (<[key := v]> doc) rest
          | inr err => DecodeErr err
          end
      | _ => DecodeErr errSyntax
      end
  end.

Definition decode (s : string) : DecodeResult Value :=
  match skip_space s with
  | "" => DecodeErr "EOF"
  | String "{" rest =>
      match skip_space rest with
      | "" => DecodeErr errEOF
      | String "}" _ => DecodeOk ∅
      | rest =>
          match scan_member rest with
          | inl (key, v, rest) =>
              scan_members (String.length rest) {[key := v]} rest
          | inr err => DecodeErr err
          end
      end
  | s =>
      if strings.HasPrefix s "null" then DecodeOk ∅
      else DecodeErr errSyntax
  end.

Definition Decode (s : string) : DecodeResult Value * nat :=
  (decode s, String.length s).

#[export] Instance lib : GoLib := {|
  mime_ParseMediaType := ParseMediaType;
  mime_ParseMediaType_empty := ltac:(by eexists);
  html2text_HTML2Text := strip_tags false;
  json_Value := Value;
  json_Decode := Decode;
  fmt_Sprintf_v := Sprintf_v;
  map_range := λ doc, (map_to_list doc).*1;
  map_range_keys := λ doc, reflexivity _;
|}.

End Ref.

(** ** Vocabulary of the specification *)

(** What has been done to the body of a response (nothing, when it has
    no body). *)
Definition body_events (resp : http.Response) : list io.Event :=
  match http.Body resp with
  | Some b => io.events b
  | None => []
  end.

(** The extractor reads a stream at most once: what it adds to the history
    of the stream is nothing, or one read. *)
Definition at_most_one_read (new : list io.Event) : Prop :=
  new = [] ∨ ∃ data, new = [io.EvRead data].

(** [after] is the response object [before] with its body, if it has one,
    closed and otherwise untouched. *)
Definition closed_only (before after : option http.Response) : Prop :=
  match before, after with
  | None, None => True
  | Some r, Some r' =>
      http.StatusCode r' = http.StatusCode r ∧
      http.Header r' = http.Header r ∧
      http.Request r' = http.Request r ∧
      match http.Body r, http.Body r' with
      | None, None => True
      | Some b, Some b' =>
          io.unread b' = io.unread b ∧
          io.events b' = io.events b ++ [io.EvClose]
      | _, _ => False
      end
  | _, _ => False
  end.

(** What the HTTP client promises about a response it hands out: the body
    is never nil, and a request that is attached has its URL. *)
Definition from_transport (resp : http.Response) : Prop :=
  is_Some (http.Body resp) ∧
  ∀ req, http.Request resp = Some req → is_Some (http.URL req).

(** A string made of white-space runes only: a concatenation of strings
    of the table. *)
Inductive seq_of (tbl : list string) : string → Prop :=
| seq_of_nil : seq_of tbl ""
| seq_of_cons p ws : p ∈ tbl → seq_of tbl ws → seq_of tbl (p +:+ ws).

Definition white_space : string → Prop := seq_of strings.unicode_space.

(** The byte-wise lexicographic order on strings: a proper prefix comes
    first, and otherwise the first byte that differs decides. *)
Inductive bytes_lt : string → string → Prop :=
| bytes_lt_prefix c s : bytes_lt "" (String c s)
| bytes_lt_byte c1 c2 s1 s2 :
    (nat_of_ascii c1 < nat_of_ascii c2)%nat →
    bytes_lt (String c1 s1) (String c2 s2)
| bytes_lt_rest c s1 s2 :
    bytes_lt s1 s2 → bytes_lt (String c s1) (String c s2).

(** An entry of a decoded JSON object, rendered as [key: value]. *)
Definition render_entry `{GoLib} (entry : string * json_Value) : string :=
  entry.1 +:+ ": " +:+ fmt_Sprintf_v entry.2.

(** The entries of a decoded JSON object in the order of their keys: a
    rearrangement of the entries whose keys increase strictly. *)
Definition sorted_entries {V} (doc : gmap string V) (entries : list (string * V))
    : Prop :=
  entries ≡ₚ map_to_list doc ∧ StronglySorted bytes_lt entries.*1.

(** The order of the keys, lifted to the entries. *)
Definition entry_le {V} (x y : string * V) : Prop := String.le x.1 y.1.

#[local] Instance entry_le_dec {V} : RelDecision (@entry_le V).
Proof. intros x y. unfold entry_le. apply _. Defined.
#[local] Instance entry_le_total {V} : Total (@entry_le V).
Proof. intros x y. apply (total String.le). Qed.

(** Collapsing runs of newlines, in the specification's words: every run
    of one or more newlines (a newline is a line feed, or a carriage
    return and a line feed) becomes the separator [": "].  [in_run] tells
    that the separator for the current run is already written. *)
Fixpoint collapse_newlines_go (in_run : bool) (s : string) : string :=
  match s with
  | "" => ""
  | String c s' =>
      if decide (c = "010"%char)
      then (if in_run then "" else ": ") +:+ collapse_newlines_go true s'
      else
        match s' with
        | String c' s'' =>
            if decide (c = "013"%char ∧ c' = "010"%char)
            then (if in_run then "" else ": ") +:+ collapse_newlines_go true s''
            else String c (collapse_newlines_go false s')
        | "" => String c ""
        end
  end.
Definition collapse_newlines : string → string := collapse_newlines_go false.

(** Collapsing white space, in the specification's words: every run of
    two or more white-space characters becomes one space; a white-space
    character that stands alone stays. *)
Fixpoint collapse_spaces_go (in_run : bool) (s : string) : string :=
  match s with
  | "" => ""
  | String c s' =>
      if regexp.perl_space c then
        if in_run then collapse_spaces_go true s'
        else
          match s' with
          | String c' _ =>
              if regexp.perl_space c'
              then " " +:+ collapse_spaces_go true s'
              else String c (collapse_spaces_go false s')
          | "" => String c ""
          end
      else String c (collapse_spaces_go false s')
  end.
Definition collapse_spaces : string → string := collapse_spaces_go false.

(** The operand of the [+] of [nlre], one newline: [\r?\n]. *)
Definition nl_unit : regexp.Regexp :=
  regexp.Cat (regexp.Quest (regexp.Lit "013")) (regexp.Lit "010").

(** The number of bytes of the run of newlines, and of the run of white
    space, at the front of a string. *)
Fixpoint newline_run (s : string) : nat :=
  match s with
  | "" => 0
  | String c s' =>
      if decide (c = "010"%char) then S (newline_run s')
      else
        match s' with
        | String c' s'' =>
            if decide (c = "013"%char ∧ c' = "010"%char)
            then S (S (newline_run s''))
            else 0
        | "" => 0
        end
  end%nat.

Fixpoint space_run (s : string) : nat :=
  match s with
  | String c s' => if regexp.perl_space c then S (space_run s') else 0
  | "" => 0
  end.

(** The media types whose branch of [extractMessage] reads the body. *)
Definition reads_body (mtype : string) : Prop :=
  mtype = "text/plain" ∨ mtype = "text/html" ∨ mtype = "application/json".

(** Two white-space characters (of the class [\s]) next to each other
    somewhere in a string. *)
Definition adjacent_spaces (t : string) : Prop :=
  ∃ pre c1 c2 post,
    t = pre +:+ String c1 (String c2 post) ∧
    regexp.perl_space c1 = true ∧ regexp.perl_space c2 = true.

(** A byte that occurs in a string. *)
Definition has_byte (c : ascii) (t : string) : Prop :=
  ∃ pre post, t = pre +:+ String c post.

(** The same two notions as functions: every byte of a string passes a
    test, the first byte is white space, two white-space characters are
    next to each other. *)
Fixpoint all_bytes (test : ascii → bool) (t : string) : bool :=
  match t with
  | "" => true
  | String c t' => test c && all_bytes test t'
  end.

Definition head_space (t : string) : bool :=
  match t with
  | String c _ => regexp.perl_space c
  | "" => false
  end.

Fixpoint adjacent_spaces_b (t : string) : bool :=
  match t with
  | "" => false
  | String c t' => regexp.perl_space c && head_space t' || adjacent_spaces_b t'
  end.

(** The last byte of a string. *)
Fixpoint last_byte (t : string) : option ascii :=
  match t with
  | "" => None
  | String c t' =>
      match last_byte t' with
      | Some c' => Some c'
      | None => Some c
      end
  end.

(** ** The earlier revision of the package

    [src/errors.go] also holds an earlier revision of the file (lines
    185-327).  Its [extractMessage] and [Check] are the ones above; its
    [Error] has no case for the empty message, and its [CheckStatus] does
    the check itself and uses [resp.Request] without testing it. *)

Module draft.
Section revision.
Context `{GoLib}.

(** [func (err *StatusError) Error() string], lines 213-221. *)
Definition Error (err : StatusError) : string :=
  let code := fmt.Sprintf_d (StatusCode err) in
  let text := http.StatusText (StatusCode err) in
  if strings.Contains (Message err) code && strings.Contains (Message err) text
  then Message err
  else code +:+ " " +:+ text +:+ ": " +:+ Message err.

(** [func CheckStatus(resp *http.Response) error], lines 284-304. *)
Definition CheckStatus (resp : http.Response)
    : outcome (option error * http.Response) :=
  if (http.StatusCode resp >=? 200) && (http.StatusCode resp <? 300)
  then Done (None, resp)
  else
    '(msg, resp) ←! extractMessage resp;
    req ←! deref (http.Request resp);
    url ←! deref (http.URL req);
    Done (Some (url_Error (http.Method req) url
                  (StatusErr {| StatusCode := http.StatusCode resp;
                                Message := msg |})), resp).

End revision.
End draft.

(** ** Notation for the examples *)

(** Line feed, and carriage return followed by line feed. *)
Definition LF : string := String "010" "".
Definition CRLF : string := String "013" (String "010" "").

(** The examples write JSON with apostrophes where the double quotes go. *)
Fixpoint dq (s : string) : string :=
  match s with
  | "" => ""
  | String c s' => String (if decide (c = "'"%char) then "034"%char else c) (dq s')
  end.

(** A stream that nobody has touched yet. *)
Definition fresh (data : string) : io.ReadCloser :=
  {| io.unread := data; io.events := [] |}.

(** A response with the given status, [Content-Type] and body, for a
    [GET] of [http://x/y]. *)
Definition response (status : Z) (ctype : option string) (body : string)
    : http.Response :=
  {| http.StatusCode := status;
     http.Header :=
       match ctype with
       | Some v => {[ "Content-Type" := [v] ]}
       | None => ∅
       end;
     http.Body := Some (fresh body);
     http.Request :=
       Some {| http.Method := "GET"; http.URL := Some "http://x/y" |} |}.

(** * Verification *)

(** ** Facts about [strings] *)

Lemma HasPrefix_spec s prefix :
  strings.HasPrefix s prefix = true ↔ ∃ post, s = prefix +:+ post.
Proof.
  revert s. induction prefix as [|p prefix IH]; intros s; simpl.
  - split; [intros _; by exists s | done].
  - destruct s as [|c s].
    + split; [done | intros [post ?]; discriminate].
    + case_decide as Hc.
      * subst c. rewrite IH. split; intros [post Hp]; exists post.
        -- by rewrite Hp.
        -- by injection Hp.
      * split; [done | intros [post Hp]; injection Hp; intros; by subst].
Qed.

Lemma Contains_spec s sub :
  strings.Contains s sub = true ↔ substring_of sub s.
Proof.
  unfold substring_of. induction s as [|c s IH]; simpl.
  - rewrite orb_false_r, HasPrefix_spec. split.
    + intros [post Hp]. by exists "", post.
    + intros [[|? ?] [post Hp]]; [by exists post | discriminate].
  - rewrite orb_true_iff, HasPrefix_spec, IH. split.
    + intros [[post Hp]|(pre & post & Hp)].
      * by exists "", post.
      * exists (String c pre), post. simpl. by rewrite Hp.
    + intros ([|c' pre] & post & Hp).
      * left. by exists post.
      * right. exists pre, post. simpl in Hp. by injection Hp.
Qed.

Lemma Contains_empty_sub s : strings.Contains s "" = true.
Proof. by destruct s. Qed.

Lemma Contains_empty_s sub : sub ≠ "" → strings.Contains "" sub = false.
Proof. by destruct sub. Qed.

(** ** Facts about [fmt] *)

Lemma pretty_N_go_nonempty (x : N) (s : string) : s ≠ "" → pretty_N_go x s ≠ "".
Proof.
  revert s. induction (N.lt_wf_0 x) as [x _ IH]; intros s Hs.
  destruct (decide (x = 0)%N) as [->|Hx].
  - by rewrite pretty_N_go_0.
  - rewrite pretty_N_go_step by lia. apply IH; [|done].
    apply N.div_lt; lia.
Qed.

Lemma Sprintf_d_nonempty (n : Z) : fmt.Sprintf_d n ≠ "".
Proof.
  assert (∀ p : positive, pretty p ≠ "") as Hpos.
  { intros p. unfold pretty, pretty_positive, pretty, pretty_N.
    rewrite decide_False by done. rewrite pretty_N_go_step by lia.
    by apply pretty_N_go_nonempty. }
  unfold fmt.Sprintf_d, pretty, pretty_Z. destruct n as [|p|p]; [done|auto|done].
Qed.

Example Sprintf_d_examples :
  fmt.Sprintf_d 404 = "404" ∧ fmt.Sprintf_d 0 = "0" ∧ fmt.Sprintf_d (-7) = "-7".
Proof. done. Qed.

(** ** The error model: claims C1 and C10 *)

(** C1. Rendering a [StatusError] follows the three-way rule, where [code]
    is the decimal text of the status code and [text] its reason phrase:
    a message that contains both as substrings is returned unchanged;
    otherwise an empty message gives "code text"; otherwise the result is
    "code text: message".  Status 500 with an empty message renders as
    "500 Internal Server Error", status 400 with message "bad field" as
    "400 Bad Request: bad field". *)
Theorem Error_three_way_rule :
  (∀ err : StatusError,
     let code := fmt.Sprintf_d (StatusCode err) in
     let text := http.StatusText (StatusCode err) in
     let both := substring_of code (Message err) ∧ substring_of text (Message err) in
     (both → Error err = Message err) ∧
     (¬ both → Message err = "" → Error err = code +:+ " " +:+ text) ∧
     (¬ both → Message err ≠ "" →
        Error err = code +:+ " " +:+ text +:+ ": " +:+ Message err)) ∧
  Error {| StatusCode := 500; Message := "" |} = "500 Internal Server Error" ∧
  Error {| StatusCode := 400; Message := "bad field" |}
    = "400 Bad Request: bad field".
Proof.
  split; [|done]. intros err code text both. unfold Error.
  fold code text. subst both. rewrite <-!Contains_spec.
  destruct (strings.Contains (Message err) code),
    (strings.Contains (Message err) text); simpl;
    destruct (decide (Message err = "")); intuition congruence.
Qed.

(** C10. When the status code has no reason phrase, a message that contains
    the decimal code is returned unchanged, and an empty message renders as
    the decimal code followed by one space; code 599 renders as "599 ". *)
Theorem Error_without_reason_phrase :
  (∀ err : StatusError,
     http.StatusText (StatusCode err) = "" →
     (substring_of (fmt.Sprintf_d (StatusCode err)) (Message err) →
        Error err = Message err) ∧
     (Message err = "" → Error err = fmt.Sprintf_d (StatusCode err) +:+ " ")) ∧
  http.StatusText 599 = "" ∧
  Error {| StatusCode := 599; Message := "" |} = "599 ".
Proof.
  split; [|done]. intros err Htext. unfold Error. rewrite Htext. split.
  - intros Hcode%Contains_spec. by rewrite Hcode, Contains_empty_sub.
  - intros ->. rewrite Contains_empty_s by apply Sprintf_d_nonempty.
    done.
Qed.

(** ** The checks: claims C9, C2 and C3 *)

Section checks.
Context `{GoLib}.

(** Extraction keeps everything of the response but the state of the
    body stream; it reads the stream at most once and never closes it. *)
Lemma extractMessage_frame resp msg resp' :
  extractMessage resp = Done (msg, resp') →
  http.StatusCode resp' = http.StatusCode resp ∧
  http.Header resp' = http.Header resp ∧
  http.Request resp' = http.Request resp ∧
  (resp' = resp ∨
   ∃ b data rest,
     http.Body resp = Some b ∧
     http.Body resp' =
       Some {| io.unread := rest;
               io.events := io.events b ++ [io.EvRead data] |}).
Proof.
  unfold extractMessage. intros Hex.
  repeat case_decide; last (simplify_eq; naive_solver);
    destruct (http.Body resp) as [b|] eqn:Hb; simplify_eq/=;
    try (destruct (json_Decode (io.unread b)) as [[doc|err] n]);
    simplify_eq/=; split_and!; try done; right; by eexists _, _, _.
Qed.

(** A response that the checker rejects never yields a nil error. *)
Lemma CheckResponse_rejected resp checker err resp' :
  checker resp = false →
  CheckResponse resp checker = Done (err, resp') →
  ∃ op url msg,
    extractMessage resp = Done (msg, resp') ∧
    err = Some (url_Error op url
      (StatusErr {| StatusCode := http.StatusCode resp; Message := msg |})).
Proof.
  unfold CheckResponse. intros -> Hc.
  destruct (extractMessage resp) as [[msg r]|] eqn:Hex; simplify_eq/=.
  apply extractMessage_frame in Hex as Hfr. destruct Hfr as (Hcode & _).
  rewrite Hcode in Hc.
  destruct (http.Request r) as [[m [u|]]|]; simplify_eq/=; by eexists _, _, _.
Qed.

Lemma CheckResponse_accepted resp checker :
  checker resp = true → CheckResponse resp checker = Done (None, resp).
Proof. unfold CheckResponse. by intros ->. Qed.

Lemma oneOfChecker_spec codes resp :
  oneOfChecker codes resp = true ↔ http.StatusCode resp ∈ codes.
Proof.
  induction codes as [|c codes IH]; simpl.
  - split; [done | by intros ?%elem_of_nil].
  - rewrite elem_of_cons, <-IH.
    destruct (decide (c = http.StatusCode resp)); intuition congruence.
Qed.

End checks.

(** C9. The allow-list classifier that [CheckStatusOneOf] builds accepts a
    response if and only if its status code is one of the expected ones;
    so [CheckStatusOneOf] returns a nil error, and leaves the response
    alone, exactly for those responses.  With no expected status every
    response is rejected, and two lists with the same members (whatever
    their order and repetitions) decide alike. *)
Theorem CheckStatusOneOf_accepts_iff `{GoLib}
    (resp : http.Response) (expectedStatuses : list Z) :
  (oneOfChecker expectedStatuses resp = true
     ↔ http.StatusCode resp ∈ expectedStatuses) ∧
  (http.StatusCode resp ∈ expectedStatuses →
     CheckStatusOneOf resp expectedStatuses = Done (None, resp)) ∧
  (http.StatusCode resp ∉ expectedStatuses →
     ∀ resp', CheckStatusOneOf resp expectedStatuses ≠ Done (None, resp')) ∧
  oneOfChecker [] resp = false ∧
  (∀ others : list Z,
     (∀ code, code ∈ expectedStatuses ↔ code ∈ others) →
     oneOfChecker expectedStatuses resp = oneOfChecker others resp ∧
     CheckStatusOneOf resp expectedStatuses = CheckStatusOneOf resp others).
Proof.
  split_and!; [apply oneOfChecker_spec| | |done|].
  - intros Hin. by apply CheckResponse_accepted, oneOfChecker_spec.
  - intros Hnot resp' Hc. apply CheckResponse_rejected in Hc.
    + by destruct Hc as (? & ? & ? & _ & ?).
    + apply not_true_is_false. by rewrite oneOfChecker_spec.
  - intros others Hsame.
    assert (oneOfChecker expectedStatuses resp = oneOfChecker others resp) as Heq.
    { apply eq_true_iff_eq. by rewrite !oneOfChecker_spec. }
    split; [done|]. unfold CheckStatusOneOf, CheckResponse. by rewrite Heq.
Qed.

Section Check_facts.
Context `{GoLib}.

Lemma closeBody_closed_only resp : closed_only resp (closeBody resp).
Proof.
  destruct resp as [r|]; [|done]. unfold closeBody, closed_only.
  destruct (http.Body r) eqn:Hb; simpl; rewrite ?Hb; done.
Qed.

Lemma closed_only_last before r' b' :
  closed_only before (Some r') →
  http.Body r' = Some b' →
  last (io.events b') = Some io.EvClose.
Proof.
  intros Hcl Hb'. destruct before as [r|]; [|done].
  destruct Hcl as (_ & _ & _ & Hbody). rewrite Hb' in Hbody.
  destruct (http.Body r); [|done]. destruct Hbody as [_ ->].
  apply last_snoc.
Qed.

(** The equations of [Check]. *)
Lemma Check_transport resp e :
  Check resp (Some e)
  = Done {| ret_resp := None; ret_err := Some e; heap := closeBody resp |}.
Proof. done. Qed.

Lemma Check_status r :
  Check (Some r) None =
  match CheckStatus r with
  | Done (None, r') =>
      Done {| ret_resp := Some r'; ret_err := None; heap := Some r' |}
  | Done (Some e, r') =>
      Done {| ret_resp := None; ret_err := Some e;
              heap := closeBody (Some r') |}
  | Panic => Panic
  end.
Proof. unfold Check. simpl. by destruct (CheckStatus r) as [[[e|] r']|]. Qed.

Lemma Check_nil_nil : Check None None = Panic.
Proof. done. Qed.

Lemma CheckStatus_nil_error r r' :
  CheckStatus r = Done (None, r') → r' = r.
Proof.
  unfold CheckStatus. intros Hc.
  destruct (DefaultResponseChecker r) eqn:Hacc.
  - rewrite CheckResponse_accepted in Hc by done. by simplify_eq.
  - apply CheckResponse_rejected in Hc as (? & ? & ? & _ & ?); done.
Qed.

End Check_facts.

(** C2. [Check] puts the transport error first: when it is not nil it is
    returned as it is, the status check is not run and the body is not
    read (the only thing that happens to the response is that its body, if
    it has one, is closed).  Otherwise [CheckStatus] decides.  Whenever the
    error that results is not nil, the returned response is nil and the
    body, if the response has one, was closed last; when it is nil, the
    response is returned as it was. *)
Theorem Check_transport_error_first `{GoLib} (resp : option http.Response) :
  (∀ e : error, ∃ h,
     Check resp (Some e)
       = Done {| ret_resp := None; ret_err := Some e; heap := h |} ∧
     closed_only resp h) ∧
  (∀ r, resp = Some r →
     match CheckStatus r with
     | Done (None, r') =>
         r' = r ∧
         Check resp None
           = Done {| ret_resp := Some r; ret_err := None; heap := Some r |}
     | Done (Some e, r') => ∃ h,
         Check resp None
           = Done {| ret_resp := None; ret_err := Some e; heap := h |} ∧
         closed_only (Some r') h
     | Panic => Check resp None = Panic
     end) ∧
  (∀ err res, Check resp err = Done res →
     match ret_err res with
     | Some e =>
         ret_resp res = None ∧
         ∀ r' b', heap res = Some r' → http.Body r' = Some b' →
                  last (io.events b') = Some io.EvClose
     | None => err = None ∧ ret_resp res = resp ∧ heap res = resp
     end).
Proof.
  split_and!.
  - intros e. eexists. split; [apply Check_transport|].
    apply closeBody_closed_only.
  - intros r ->. rewrite Check_status.
    destruct (CheckStatus r) as [[[e|] r']|] eqn:Hcs; [|..|done].
    + eexists. split; [done|]. apply closeBody_closed_only.
    + apply CheckStatus_nil_error in Hcs as ->. done.
  - intros [e|] res.
    + rewrite Check_transport. intros [= <-]. simpl. split; [done|].
      intros r' b' Hh. apply (closed_only_last resp). rewrite <-Hh.
      apply closeBody_closed_only.
    + destruct resp as [r|]; [|by rewrite Check_nil_nil].
      rewrite Check_status.
      destruct (CheckStatus r) as [[[e|] r']|] eqn:Hcs; [| |done].
      * intros [= <-]. simpl. split; [done|].
        intros r'' b' Hh. apply (closed_only_last (Some r')). rewrite <-Hh.
        apply closeBody_closed_only.
      * apply CheckStatus_nil_error in Hcs as ->. by intros [= <-].
Qed.

Section CheckResponse_facts.
Context `{GoLib}.

Lemma extractMessage_events resp msg resp' :
  extractMessage resp = Done (msg, resp') →
  ∃ new, body_events resp' = body_events resp ++ new ∧ at_most_one_read new.
Proof.
  intros (_ & _ & _ & [->|(b & data & rest & Hb & Hb')])%extractMessage_frame.
  - exists []. split; [by rewrite app_nil_r | by left].
  - exists [io.EvRead data]. unfold body_events. rewrite Hb, Hb'. simpl.
    split; [done | right; by eexists].
Qed.

(** With a body and a request URL at hand, extraction and the check
    return. *)
Lemma extractMessage_returns resp :
  is_Some (http.Body resp) → ∃ msg resp', extractMessage resp = Done (msg, resp').
Proof.
  intros [b Hb]. unfold extractMessage. rewrite Hb. simpl.
  repeat case_decide; try by eexists _, _.
  destruct (json_Decode (io.unread b)) as [[doc|err] n]; by eexists _, _.
Qed.

Lemma CheckResponse_returns resp checker :
  from_transport resp → checker resp = false →
  ∃ err resp', CheckResponse resp checker = Done (Some err, resp').
Proof.
  intros [Hbody Hurl] Hrej. unfold CheckResponse. rewrite Hrej.
  destruct (extractMessage_returns resp Hbody) as (msg & resp' & Hex).
  rewrite Hex. simpl.
  apply extractMessage_frame in Hex as (_ & _ & Hreq & _). rewrite Hreq.
  destruct (http.Request resp) as [req|] eqn:Hr; [|by eexists _, _].
  destruct (Hurl req eq_refl) as [u ->]. by eexists _, _.
Qed.

End CheckResponse_facts.

(** C3, as the code has it.  For a response that the classifier rejects,
    [CheckResponse] returns an error that is not nil, and all it does to
    the body stream is what the extractor does: at most one read, and no
    close.  The body is closed on the error path of [Check], after the
    extractor's read and before the error is returned. *)
Theorem CheckResponse_reads_once_Check_closes `{GoLib}
    (resp : http.Response) (checker : ResponseChecker) :
  checker resp = false →
  (∀ err resp', CheckResponse resp checker = Done (err, resp') →
     is_Some err ∧
     ∃ new, body_events resp' = body_events resp ++ new ∧ at_most_one_read new) ∧
  (from_transport resp →
     ∃ err resp', CheckResponse resp checker = Done (Some err, resp')) ∧
  (from_transport resp → DefaultResponseChecker resp = false →
     ∃ err resp' new,
       Check (Some resp) None
         = Done {| ret_resp := None; ret_err := Some err; heap := Some resp' |} ∧
       body_events resp' = body_events resp ++ new ++ [io.EvClose] ∧
       at_most_one_read new).
Proof.
  intros Hrej. split_and!.
  - intros err resp' Hc.
    apply CheckResponse_rejected in Hc as (op & url & msg & Hex & ->); [|done].
    split; [done|]. by eapply extractMessage_events.
  - intros Hft. by apply CheckResponse_returns.
  - intros Hft Hdef.
    destruct (CheckResponse_returns resp DefaultResponseChecker Hft Hdef)
      as (err & resp' & Hc).
    rewrite Check_status. unfold CheckStatus. rewrite Hc.
    apply CheckResponse_rejected in Hc as (op & url & msg & Hex & _); [|done].
    apply extractMessage_frame in Hex as Hfr. destruct Hfr as (_ & _ & _ & Hb).
    apply extractMessage_events in Hex as (new & Hev & Hnew).
    destruct Hft as [[b Hbody] _].
    assert (∃ b', http.Body resp' = Some b') as [b' Hb'].
    { destruct Hb as [->|(? & ? & ? & _ & ->)]; by eexists. }
    unfold closeBody. rewrite Hb'. eexists _, _, new. split; [done|].
    split; [|done]. unfold body_events in *. rewrite Hb' in Hev. simpl.
    by rewrite Hev, <-app_assoc.
Qed.

(** C3 as the specification states it fails: [CheckResponse] returns the
    error for this rejected response and has read the body, but has not
    closed it. *)
Lemma CheckResponse_leaves_body_open :
  let resp := response 500 (Some "text/plain") "boom" in
  DefaultResponseChecker resp = false ∧
  ∃ resp',
    CheckResponse (H := Ref.lib) resp DefaultResponseChecker
      = Done (Some (url_Error "GET" "http://x/y"
                      (StatusErr {| StatusCode := 500; Message := "boom" |})),
              resp') ∧
    body_events resp' = [io.EvRead "boom"] ∧
    io.EvClose ∉ body_events resp'.
Proof.
  split; [done|]. eexists. split; [vm_compute; reflexivity|].
  split; [done|]. simpl. by intros [?|?%elem_of_nil]%elem_of_cons.
Qed.

Lemma CheckResponse_reads_once_Check_closes_witness :
  ∃ err resp' new,
    Check (H := Ref.lib) (Some (response 500 (Some "text/plain") "boom")) None
      = Done {| ret_resp := None; ret_err := Some err; heap := Some resp' |} ∧
    body_events resp'
      = body_events (response 500 (Some "text/plain") "boom") ++ new ++ [io.EvClose] ∧
    at_most_one_read new.
Proof.
  apply (CheckResponse_reads_once_Check_closes (H := Ref.lib)
           (response 500 (Some "text/plain") "boom") DefaultResponseChecker).
  - reflexivity.
  - split; [by eexists|]. intros req [= <-]. by eexists.
  - reflexivity.
Defined.

(** ** The two regular expressions *)

Lemma slice_from_length n s :
  String.length (strings.slice_from n s) = (String.length s - n)%nat.
Proof. revert s. induction n; intros [|c s]; simpl; auto. Qed.

Lemma slice_from_0 s : strings.slice_from 0 s = s.
Proof. by destruct s. Qed.

(** Induction on strings that may step over several bytes at once. *)
Lemma string_strong_ind (P : string → Prop) :
  (∀ s, (∀ s', (String.length s' < String.length s)%nat → P s') → P s) →
  ∀ s, P s.
Proof.
  intros Hstep s. remember (String.length s) as n eqn:Hn. revert s Hn.
  induction n as [n IH] using lt_wf_ind. intros s ->.
  apply Hstep. intros s' Hlt. by apply (IH _ Hlt).
Qed.

Lemma newline_run_le s : (newline_run s ≤ String.length s)%nat.
Proof.
  induction s as [s IH] using string_strong_ind.
  destruct s as [|c s]; simpl; [done|].
  destruct (decide (c = "010"%char)).
  { specialize (IH s). simpl in IH. lia. }
  destruct s as [|c' s]; simpl; [lia|].
  destruct (decide _); [|lia]. specialize (IH s). simpl in IH. lia.
Qed.

Lemma run_nl_unit s k :
  regexp.run nl_unit s k =
  match s with
  | "" => None
  | String c s' =>
      if decide (c = "010"%char) then k s'
      else
        match s' with
        | String c' s'' =>
            if decide (c = "013"%char ∧ c' = "010"%char) then k s'' else None
        | "" => None
        end
  end.
Proof.
  destruct s as [|c s]; [done|]. simpl.
  destruct (decide (c = "013"%char)) as [->|Hcr].
  - rewrite (decide_False (P := "013"%char = "010"%char)) by done.
    destruct s as [|c' s]; [done|].
    destruct (decide (c' = "010"%char)) as [->|Hlf].
    + rewrite (decide_True (P := _ ∧ _)) by done. by destruct (k s).
    + rewrite (decide_False (P := _ ∧ _)) by (by intros [? ?]). done.
  - destruct (decide (c = "010"%char)) as [->|Hlf]; [done|].
    destruct s as [|c' s]; [done|].
    by rewrite (decide_False (P := _ ∧ _)) by (by intros [? ?]).
Qed.

Lemma iterate_nl fuel s :
  (String.length s ≤ fuel)%nat →
  regexp.iterate (regexp.run nl_unit) Some fuel s =
  if decide (newline_run s = 0%nat) then None
  else Some (strings.slice_from (newline_run s) s).
Proof.
  revert s. induction fuel as [|fuel IH]; intros s Hlen.
  { destruct s; [done | simpl in Hlen; lia]. }
  cbn [regexp.iterate]. rewrite run_nl_unit.
  assert (∀ t, (String.length t ≤ fuel)%nat →
    match regexp.iterate (regexp.run nl_unit) Some fuel t with
    | Some rest => Some rest
    | None => Some t
    end = Some (strings.slice_from (newline_run t) t)) as Hnext.
  { intros t Ht. rewrite IH by done. case_decide as Hz; [|done].
    by rewrite Hz, slice_from_0. }
  destruct s as [|c s]; [done|]. simpl in Hlen. simpl newline_run.
  destruct (decide (c = "010"%char)).
  { rewrite Hnext by lia. done. }
  destruct s as [|c' s]; [done|]. simpl in Hlen.
  destruct (decide (_ ∧ _)); [|done]. rewrite Hnext by lia. done.
Qed.

Lemma match_at_nlre s :
  regexp.match_at nlre s =
  if decide (newline_run s = 0%nat) then None else Some (newline_run s).
Proof.
  unfold regexp.match_at, nlre. cbn [regexp.run]. fold nl_unit.
  rewrite iterate_nl by done. case_decide; [done|]. simpl.
  rewrite slice_from_length. pose proof (newline_run_le s). f_equal. lia.
Qed.

Lemma iterate_space fuel s :
  (String.length s ≤ fuel)%nat →
  regexp.iterate (regexp.run (regexp.Class regexp.perl_space)) Some fuel s =
  if decide (space_run s = 0%nat) then None
  else Some (strings.slice_from (space_run s) s).
Proof.
  revert s. induction fuel as [|fuel IH]; intros s Hlen.
  { destruct s; [done | simpl in Hlen; lia]. }
  cbn [regexp.iterate regexp.run].
  destruct s as [|c s]; [done|]. simpl in Hlen. simpl space_run.
  destruct (regexp.perl_space c); [|done]. rewrite IH by lia.
  rewrite (decide_False (P := S _ = 0%nat)) by done. simpl.
  case_decide as Hz; [|done]. by rewrite Hz, slice_from_0.
Qed.

Lemma space_run_le s : (space_run s ≤ String.length s)%nat.
Proof.
  induction s as [|c s IH]; simpl; [done|].
  destruct (regexp.perl_space c); lia.
Qed.

Lemma match_at_space s :
  regexp.match_at space s =
  if decide (2 ≤ space_run s)%nat then Some (space_run s) else None.
Proof.
  unfold regexp.match_at, space. cbn [regexp.run].
  destruct s as [|c s]; [done|]. simpl space_run.
  destruct (regexp.perl_space c); [|done]. rewrite iterate_space by done.
  case_decide as Hz.
  - rewrite decide_False by lia. done.
  - rewrite decide_True by lia. simpl. rewrite slice_from_length.
    pose proof (space_run_le s). f_equal. lia.
Qed.

(** Replacing the matches of [nlre] collapses the runs of newlines, and
    replacing the matches of [space] collapses the runs of white space. *)
Lemma replace_go_nlre s :
  regexp.replace_go nlre ": " (newline_run s) s = collapse_newlines_go true s ∧
  regexp.replace_go nlre ": " 0 s = collapse_newlines_go false s.
Proof.
  induction s as [s IH] using string_strong_ind.
  destruct s as [|c s]; [done|].
  cbn [regexp.replace_go]. rewrite match_at_nlre.
  cbn [newline_run collapse_newlines_go].
  destruct (decide (c = "010"%char)).
  { rewrite (decide_False (P := S _ = 0%nat)) by done.
    destruct (IH s) as [-> _]; [simpl; lia|]. done. }
  destruct s as [|c' s].
  { by rewrite (decide_True (P := 0%nat = 0%nat)). }
  destruct (decide (_ ∧ _)).
  - rewrite (decide_False (P := S _ = 0%nat)) by done.
    cbn [regexp.replace_go]. destruct (IH s) as [-> _]; [simpl; lia|]. done.
  - rewrite (decide_True (P := 0%nat = 0%nat)) by done.
    destruct (IH (String c' s)) as [_ ->]; [simpl; lia|]. done.
Qed.

Lemma ReplaceAllString_nlre s :
  regexp.ReplaceAllString nlre s ": " = collapse_newlines s.
Proof. apply replace_go_nlre. Qed.

Lemma replace_go_space s :
  regexp.replace_go space " " (space_run s) s = collapse_spaces_go true s ∧
  regexp.replace_go space " " 0 s = collapse_spaces_go false s.
Proof.
  induction s as [|c s [IH1 IH2]]; [done|].
  cbn [regexp.replace_go]. rewrite match_at_space.
  cbn [space_run collapse_spaces_go].
  destruct (regexp.perl_space c) eqn:Hc.
  - split; [done|]. destruct s as [|c' s].
    { by rewrite decide_False by (simpl; lia). }
    simpl space_run in *. destruct (regexp.perl_space c') eqn:Hc'.
    + rewrite decide_True by lia. by rewrite IH1.
    + rewrite decide_False by lia. by rewrite IH2.
  - rewrite decide_False by lia. by rewrite IH2.
Qed.

Lemma ReplaceAllString_space s :
  regexp.ReplaceAllString space s " " = collapse_spaces s.
Proof. apply replace_go_space. Qed.

(** ** [strings.TrimSpace] *)

Lemma app_cons_s (c : ascii) (s1 s2 : string) :
  String c s1 +:+ s2 = String c (s1 +:+ s2).
Proof. done. Qed.

Lemma app_nil_r_s (s : string) : s +:+ "" = s.
Proof. induction s as [|c s IH]; [done|]. by rewrite app_cons_s, IH. Qed.

Lemma app_assoc_s (s1 s2 s3 : string) : (s1 +:+ s2) +:+ s3 = s1 +:+ s2 +:+ s3.
Proof. induction s1 as [|c s1 IH]; [done|]. by rewrite !app_cons_s, IH. Qed.

Lemma length_app_s (s1 s2 : string) :
  String.length (s1 +:+ s2) = (String.length s1 + String.length s2)%nat.
Proof.
  induction s1 as [|c s1 IH]; [done|]. rewrite app_cons_s. simpl. by rewrite IH.
Qed.

Lemma rev_app_eq (s1 s2 : string) : String.rev_app s1 s2 = String.rev s1 +:+ s2.
Proof.
  revert s2. induction s1 as [|c s1 IH]; intros s2; [done|].
  unfold String.rev. simpl. by rewrite !IH, app_assoc_s.
Qed.

Lemma rev_cons (c : ascii) (s : string) :
  String.rev (String c s) = String.rev s +:+ String c "".
Proof. unfold String.rev at 1. simpl. apply rev_app_eq. Qed.

Lemma rev_app_distr_s (s1 s2 : string) :
  String.rev (s1 +:+ s2) = String.rev s2 +:+ String.rev s1.
Proof.
  induction s1 as [|c s1 IH]; [by rewrite app_nil_r_s|].
  by rewrite app_cons_s, !rev_cons, IH, app_assoc_s.
Qed.

Lemma rev_involutive_s (s : string) : String.rev (String.rev s) = s.
Proof.
  induction s as [|c s IH]; [done|]. by rewrite rev_cons, rev_app_distr_s, IH.
Qed.

Lemma seq_of_app tbl ws1 ws2 :
  seq_of tbl ws1 → seq_of tbl ws2 → seq_of tbl (ws1 +:+ ws2).
Proof.
  induction 1 as [|p ws Hp Hws IH]; [done|]. intros Hws2.
  rewrite app_assoc_s. constructor; auto.
Qed.

Lemma seq_of_rev tbl ws :
  seq_of (String.rev <$> tbl) ws → seq_of tbl (String.rev ws).
Proof.
  induction 1 as [|p ws Hp Hws IH]; [constructor|].
  rewrite rev_app_distr_s. apply seq_of_app; [done|].
  apply list_elem_of_fmap in Hp as (q & -> & Hq). rewrite rev_involutive_s.
  rewrite <-(app_nil_r_s q). by repeat constructor.
Qed.

Lemma trim_go_skip tbl q rest :
  strings.trim_go tbl (String.length q) (q +:+ rest) = strings.trim_go tbl 0 rest.
Proof. induction q as [|c q IH]; [done|]. apply IH. Qed.

Lemma trim_go_spec tbl s :
  Forall (λ p, p ≠ "") tbl →
  ∃ pre,
    s = pre +:+ strings.trim_go tbl 0 s ∧
    seq_of tbl pre ∧
    ∀ p, p ∈ tbl → strings.HasPrefix (strings.trim_go tbl 0 s) p = false.
Proof.
  intros Hne. induction s as [s IH] using string_strong_ind.
  destruct s as [|c s].
  { exists "". split_and!; [done|constructor|]. intros p Hp.
    rewrite Forall_forall in Hne. specialize (Hne p Hp). by destruct p. }
  cbn [strings.trim_go].
  destruct (List.find (strings.HasPrefix (String c s)) tbl) as [p|] eqn:Hfind.
  - apply List.find_some in Hfind as [Hp%list_elem_of_In Hpre].
    apply HasPrefix_spec in Hpre as [rest Hrest].
    rewrite Forall_forall in Hne. pose proof (Hne p Hp) as Hpne.
    destruct p as [|c' p]; [done|]. injection Hrest as Hc Hs. subst c' s.
    simpl. rewrite Nat.sub_0_r, trim_go_skip.
    destruct (IH rest) as (pre & Heq & Hseq & Hno).
    { simpl. rewrite length_app_s. lia. }
    exists (String c p +:+ pre). split_and!; [|by constructor|done].
    rewrite app_assoc_s. by rewrite <-Heq.
  - exists "". split_and!; [done|constructor|]. intros p Hp.
    apply list_elem_of_In in Hp. by apply (List.find_none _ _ Hfind).
Qed.

(** The result of [strings.TrimSpace] is the string without a run of
    white-space runes at its front and one at its back, and neither begins
    nor ends with a white-space rune. *)
Lemma TrimSpace_spec s :
  ∃ pre post,
    s = pre +:+ strings.TrimSpace s +:+ post ∧
    white_space pre ∧ white_space post ∧
    ∀ p, p ∈ strings.unicode_space →
      strings.HasPrefix (strings.TrimSpace s) p = false ∧
      strings.HasSuffix (strings.TrimSpace s) p = false.
Proof.
  assert (Forall (λ p, p ≠ "") strings.unicode_space) as Hne1
    by (repeat constructor; discriminate).
  assert (Forall (λ p, p ≠ "") (String.rev <$> strings.unicode_space)) as Hne2
    by (repeat constructor; discriminate).
  unfold strings.TrimSpace.
  destruct (trim_go_spec strings.unicode_space s Hne1) as (pre & Hs & Hpre & Hno1).
  set (t := strings.trim_go strings.unicode_space 0 s) in *.
  destruct (trim_go_spec (String.rev <$> strings.unicode_space) (String.rev t) Hne2)
    as (post & Ht & Hpost & Hno2).
  set (u := strings.trim_go (String.rev <$> strings.unicode_space) 0 (String.rev t)) in *.
  apply (f_equal String.rev) in Ht. rewrite rev_involutive_s, rev_app_distr_s in Ht.
  exists pre, (String.rev post). split_and!.
  - by rewrite <-Ht.
  - done.
  - by apply seq_of_rev.
  - intros p Hp. split.
    + apply not_true_is_false. intros [x Hx]%HasPrefix_spec.
      specialize (Hno1 p Hp). apply not_true_iff_false in Hno1. apply Hno1.
      apply HasPrefix_spec. exists (x +:+ String.rev post).
      by rewrite Ht, Hx, app_assoc_s.
    + unfold strings.HasSuffix. rewrite rev_involutive_s. apply Hno2.
      apply list_elem_of_fmap. by exists p.
Qed.

(** No-break space and line separator are trimmed like the ASCII white
    space; white space inside the text stays. *)
Example TrimSpace_example :
  strings.TrimSpace
    (strings.bytes [194; 160]%nat +:+ " a  b" +:+ LF
     +:+ strings.bytes [226; 128; 168]%nat)
  = "a  b".
Proof. vm_compute. reflexivity. Qed.

(** ** Sorting the keys *)

Lemma compare_Lt_bytes_lt s1 s2 :
  (s1 ?= s2)%string = Lt ↔ bytes_lt s1 s2.
Proof.
  revert s2. induction s1 as [|c1 s1 IH]; intros [|c2 s2]; simpl.
  - split; [done | inversion 1].
  - split; [constructor | done].
  - split; [done | inversion 1].
  - unfold Ascii.compare.
    destruct (N.compare_spec (N_of_ascii c1) (N_of_ascii c2)) as [Heq|Hlt|Hgt].
    + apply (f_equal ascii_of_N) in Heq. rewrite !ascii_N_embedding in Heq.
      subst c2. rewrite IH. split.
      * by constructor.
      * inversion 1; subst; [lia | done].
    + split; [intros _ | done]. apply bytes_lt_byte.
      unfold nat_of_ascii. lia.
    + split; [done|]. inversion 1; subst; unfold nat_of_ascii in *; lia.
Qed.

Lemma String_le_bytes_lt s1 s2 : String.le s1 s2 ↔ s1 = s2 ∨ bytes_lt s1 s2.
Proof.
  rewrite <-compare_Lt_bytes_lt. unfold String.le, String.leb.
  destruct (s1 ?= s2)%string eqn:Hc; simpl.
  - apply String.compare_eq_iff in Hc. split; [by left | done].
  - split; [by right | done].
  - split; [done|]. intros [->|?]; [|done].
    assert ((s2 ?= s2)%string = Eq) as Hrefl; [|congruence].
    clear. induction s2 as [|c s IH]; simpl; [done|].
    unfold Ascii.compare. by rewrite N.compare_refl.
Qed.

(** Whatever algorithm sorts the keys, the result is the one of
    [sort.Strings]. *)
Lemma sort_Strings_unique (keys sorted : list string) :
  Sorted String.le sorted → sorted ≡ₚ keys → sort.Strings keys = sorted.
Proof.
  intros Hs Hp. apply (Sorted_unique String.le); [|done|].
  - apply (Sorted_merge_sort String.le).
  - unfold sort.Strings. by rewrite merge_sort_Permutation.
Qed.

Lemma StronglySorted_le_NoDup (l : list string) :
  Sorted String.le l → NoDup l → StronglySorted bytes_lt l.
Proof.
  intros Hs%(Sorted_StronglySorted String.le) Hnd.
  induction Hs as [|k l Hs IH Hall]; [constructor|].
  apply NoDup_cons in Hnd as [Hk Hnd]. constructor; [auto|].
  rewrite Forall_forall in Hall |- *. intros k' Hin.
  destruct (proj1 (String_le_bytes_lt k k') (Hall k' Hin)) as [->|]; done.
Qed.

Lemma bytes_lt_asym s1 s2 : bytes_lt s1 s2 → bytes_lt s2 s1 → False.
Proof.
  rewrite <-!compare_Lt_bytes_lt, (String.compare_antisym s2 s1).
  by intros ->.
Qed.

Lemma StronglySorted_fst {V} (entries : list (string * V)) :
  StronglySorted bytes_lt entries.*1 →
  StronglySorted (λ x y, bytes_lt x.1 y.1) entries.
Proof.
  induction entries as [|x entries IH]; [constructor|].
  rewrite fmap_cons. intros [Hs Hall]%StronglySorted_inv.
  constructor; [auto|]. by rewrite Forall_fmap in Hall.
Qed.

(** There is one way to put the entries in the order of their keys. *)
Lemma sorted_entries_unique {V} (doc : gmap string V) entries1 entries2 :
  sorted_entries doc entries1 → sorted_entries doc entries2 →
  entries1 = entries2.
Proof.
  intros [Hp1 Hs1%StronglySorted_fst] [Hp2 Hs2%StronglySorted_fst].
  eapply StronglySorted_unique_strong; [|done..|by rewrite Hp1, Hp2].
  intros x1 x2 _ _ H12 H21. by destruct (bytes_lt_asym _ _ H12 H21).
Qed.

Section json.
Context `{GoLib}.

(** The fields that [extractMessage] joins are the entries of the
    object, in the order of their keys. *)
Lemma sorted_fields (doc : gmap string json_Value) :
  ∃ entries : list (string * json_Value),
    sorted_entries doc entries ∧
    (λ k, k +:+ ": " +:+ index_v doc k) <$> sort.Strings (map_range doc)
      = render_entry <$> entries.
Proof.
  set (entries := merge_sort entry_le (map_to_list doc)).
  assert (entries ≡ₚ map_to_list doc) as Hperm
    by apply merge_sort_Permutation.
  assert (Sorted String.le entries.*1) as Hsorted.
  { apply (Sorted_fmap _ entry_le); [done|]. apply (Sorted_merge_sort _). }
  exists entries. split; [split; [done|]|].
  - apply StronglySorted_le_NoDup; [done|]. rewrite Hperm.
    apply NoDup_fst_map_to_list.
  - rewrite (sort_Strings_unique _ entries.*1); [|done|].
    + rewrite <-list_fmap_compose. apply Forall_fmap_ext_1, Forall_forall.
      intros [k v] Hin. rewrite Hperm in Hin.
      apply elem_of_map_to_list in Hin. unfold index_v, render_entry. simpl.
      by rewrite Hin.
    + by rewrite map_range_keys, Hperm.
Qed.

End json.

(** ** The extractor: claims C4 to C8 *)

Section extract.
Context `{GoLib}.

Lemma extractMessage_json_ok resp b doc n :
  vendorType (mediaType resp) = "application/json" →
  http.Body resp = Some b →
  json_Decode (io.unread b) = (DecodeOk doc, n) →
  extractMessage resp =
    Done (strings.Join
            ((λ k, k +:+ ": " +:+ index_v doc k)
               <$> sort.Strings (map_range doc)) ", ",
          http.with_body resp (io.consume b n)).
Proof.
  intros Hty Hb Hdec. unfold extractMessage. rewrite Hty, Hb. simpl.
  by rewrite Hdec.
Qed.

Lemma extractMessage_json_err resp b err n :
  vendorType (mediaType resp) = "application/json" →
  http.Body resp = Some b →
  json_Decode (io.unread b) = (DecodeErr err, n) →
  extractMessage resp =
    Done ("<invalid json in response body: " +:+ err +:+ ">",
          http.with_body resp (io.consume b n)).
Proof.
  intros Hty Hb Hdec. unfold extractMessage. rewrite Hty, Hb. simpl.
  by rewrite Hdec.
Qed.

End extract.

(** C4. When the normalized content type is [application/json] and the
    body decodes, the message is made of the entries of the object sorted
    by key in increasing byte-wise lexicographic order (there is one such
    arrangement, whatever the order in which the map is traversed), each
    rendered as "key: value", joined with ", ".  An empty object gives the
    empty message, and the body [{"foo": "bar", "baz": "quux"}] gives
    "baz: quux, foo: bar". *)
Theorem extractMessage_json_sorted :
  (∀ (L : GoLib) resp b doc n,
     vendorType (mediaType resp) = "application/json" →
     http.Body resp = Some b →
     json_Decode (io.unread b) = (DecodeOk doc, n) →
     (∃ entries : list (string * json_Value),
        sorted_entries doc entries ∧
        (∀ entries', sorted_entries doc entries' → entries' = entries) ∧
        extractMessage resp =
          Done (strings.Join (render_entry <$> entries) ", ",
                http.with_body resp (io.consume b n))) ∧
     (doc = ∅ →
        extractMessage resp = Done ("", http.with_body resp (io.consume b n)))) ∧
  (∃ resp',
     extractMessage (H := Ref.lib)
       (response 500 (Some "application/json")
          (dq "{'foo': 'bar', 'baz': 'quux'}"))
     = Done ("baz: quux, foo: bar", resp')) ∧
  (∃ resp',
     extractMessage (H := Ref.lib) (response 500 (Some "application/json") "{}")
     = Done ("", resp')).
Proof.
  split_and!.
  - intros L resp b doc n Hty Hb Hdec.
    rewrite (extractMessage_json_ok resp b doc n) by done. split.
    + destruct (sorted_fields doc) as (entries & Hsorted & ->).
      exists entries. split_and!; [done| |done].
      intros entries' Hsorted'. by apply (sorted_entries_unique doc).
    + intros ->. destruct (sorted_fields (∅ : gmap string json_Value))
        as (entries & [Hperm _] & ->).
      rewrite map_to_list_empty in Hperm. by apply Permutation_nil_r in Hperm as ->.
  - eexists. vm_compute. reflexivity.
  - eexists. vm_compute. reflexivity.
Qed.

Lemma extractMessage_json_sorted_witness :
  ∃ entries : list (string * Ref.Value),
    sorted_entries ({[ "foo" := Ref.VString "bar" ]} : gmap string Ref.Value) entries ∧
    (∀ entries',
       sorted_entries ({[ "foo" := Ref.VString "bar" ]} : gmap string Ref.Value) entries' →
       entries' = entries) ∧
    extractMessage (H := Ref.lib)
      (response 500 (Some "application/json") (dq "{'foo': 'bar'}")) =
      Done (strings.Join (render_entry (H := Ref.lib) <$> entries) ", ",
            http.with_body
              (response 500 (Some "application/json") (dq "{'foo': 'bar'}"))
              (io.consume (fresh (dq "{'foo': 'bar'}")) 14)).
Proof.
  apply (proj1 extractMessage_json_sorted Ref.lib
           (response 500 (Some "application/json") (dq "{'foo': 'bar'}"))
           (fresh (dq "{'foo': 'bar'}"))).
  - vm_compute. reflexivity.
  - reflexivity.
  - vm_compute. reflexivity.
Defined.

(** C5. When the normalized content type is [application/json] and the
    body does not decode, extraction still returns: the message is the
    placeholder "<invalid json in response body: ERROR>" around the text
    of the decoder's error, and the error that the check returns is the
    usual one, a [url.Error] around the [StatusError] with that message.
    A truncated body is an example. *)
Theorem extractMessage_invalid_json :
  (∀ (L : GoLib) resp b err n,
     vendorType (mediaType resp) = "application/json" →
     http.Body resp = Some b →
     json_Decode (io.unread b) = (DecodeErr err, n) →
     let msg := "<invalid json in response body: " +:+ err +:+ ">" in
     extractMessage resp = Done (msg, http.with_body resp (io.consume b n)) ∧
     strings.HasPrefix msg "<invalid json in response body:" = true ∧
     ∀ checker, checker resp = false →
       (∀ e resp', CheckResponse resp checker = Done (e, resp') →
          ∃ op url,
            e = Some (url_Error op url
                  (StatusErr {| StatusCode := http.StatusCode resp;
                                Message := msg |}))) ∧
       (from_transport resp →
          ∃ e resp', CheckResponse resp checker = Done (Some e, resp'))) ∧
  (∃ resp',
     CheckStatus (H := Ref.lib)
       (response 500 (Some "application/json") (dq "{'foo': 'ba"))
     = Done (Some (url_Error "GET" "http://x/y"
               (StatusErr {| StatusCode := 500;
                             Message := "<invalid json in response body: unexpected EOF>" |})),
             resp')).
Proof.
  split; [|eexists; vm_compute; reflexivity].
  intros L resp b err n Hty Hb Hdec msg.
  pose proof (extractMessage_json_err resp b err n Hty Hb Hdec) as Hex.
  split_and!; [done|done|]. intros checker Hrej. split.
  - intros e resp' Hc.
    apply CheckResponse_rejected in Hc as (op & url & msg' & Hex' & ->); [|done].
    rewrite Hex in Hex'. simplify_eq. by eexists _, _.
  - intros Hft. by apply CheckResponse_returns.
Qed.

Lemma extractMessage_invalid_json_witness :
  extractMessage (H := Ref.lib)
    (response 500 (Some "application/json") (dq "{'foo': 'ba"))
  = Done ("<invalid json in response body: unexpected EOF>",
          http.with_body
            (response 500 (Some "application/json") (dq "{'foo': 'ba"))
            (io.consume (fresh (dq "{'foo': 'ba")) 11)).
Proof.
  apply (proj1 extractMessage_invalid_json Ref.lib
           (response 500 (Some "application/json") (dq "{'foo': 'ba"))
           (fresh (dq "{'foo': 'ba")) "unexpected EOF" 11%nat).
  - vm_compute. reflexivity.
  - reflexivity.
  - vm_compute. reflexivity.
Defined.

(** ** Vendor media types *)

Lemma substring_of_cons sub c s :
  substring_of sub s → substring_of sub (String c s).
Proof. intros (pre & post & ->). by exists (String c pre), post. Qed.

Lemma IndexRune_first (c : ascii) pre post :
  ¬ substring_of (String c "") pre →
  strings.IndexRune (pre +:+ String c post) c = Some (String.length pre).
Proof.
  induction pre as [|c' pre IH]; intros Hnot; simpl.
  - by rewrite decide_True.
  - rewrite decide_False.
    + rewrite IH; [done|]. intros ?. by apply Hnot, substring_of_cons.
    + intros ->. apply Hnot. by exists "", pre.
Qed.

Lemma IndexRune_none (c : ascii) s :
  ¬ substring_of (String c "") s → strings.IndexRune s c = None.
Proof.
  induction s as [|c' s IH]; intros Hnot; simpl; [done|].
  rewrite decide_False.
  - rewrite IH; [done|]. intros ?. by apply Hnot, substring_of_cons.
  - intros ->. apply Hnot. by exists "", s.
Qed.

Lemma slice_from_after pre c post :
  strings.slice_from (String.length pre + 1) (pre +:+ String c post) = post.
Proof. induction pre; [apply slice_from_0 | done]. Qed.

(** C7. A media type that begins with "application/vnd." is rewritten to
    "application/" followed by everything after its first '+', and is left
    as it is when it has no '+'.  So [application/vnd.api+json] becomes
    [application/json], a type with several '+' is cut at the first one,
    and [application/vnd.foo] stays and is handled by the default branch,
    which reads nothing and gives the empty message; a body sent as
    [application/vnd.api+json] is digested as JSON. *)
Theorem vendorType_first_plus :
  (∀ mtype,
     strings.HasPrefix mtype "application/vnd." = true →
     (∀ pre post,
        mtype = pre +:+ "+" +:+ post → ¬ substring_of "+" pre →
        vendorType mtype = "application/" +:+ post) ∧
     (¬ substring_of "+" mtype → vendorType mtype = mtype)) ∧
  vendorType "application/vnd.api+json" = "application/json" ∧
  vendorType "application/vnd.a+b+json" = "application/b+json" ∧
  vendorType "application/vnd.foo" = "application/vnd.foo" ∧
  (∀ (L : GoLib) resp,
     mediaType resp = "application/vnd.foo" →
     extractMessage resp = Done ("", resp)) ∧
  (∃ resp',
     extractMessage (H := Ref.lib)
       (response 422 (Some "application/vnd.api+json") (dq "{'detail': 'bad'}"))
     = Done ("detail: bad", resp')).
Proof.
  split_and!; [|done..| |eexists; vm_compute; reflexivity].
  - intros mtype Hpre. unfold vendorType. rewrite Hpre. split.
    + intros pre post -> Hnot.
      change (pre +:+ "+" +:+ post) with (pre +:+ String "+"%char post).
      by rewrite IndexRune_first, slice_from_after.
    + intros Hnot. by rewrite IndexRune_none.
  - intros L resp Hty. unfold extractMessage. by rewrite Hty.
Qed.

Lemma vendorType_first_plus_witness :
  vendorType "application/vnd.github.v3+json" = "application/json".
Proof.
  apply (proj1 (proj1 vendorType_first_plus "application/vnd.github.v3+json"
                  eq_refl) "application/vnd.github.v3" "json" eq_refl).
  rewrite <-Contains_spec. vm_compute. discriminate.
Defined.

(** C8. A response without a [Content-Type] header, or with one that
    does not parse, is handled as [text/plain]; and for a response that is
    handled as [text/plain], the message is the whole body as it is read,
    byte for byte.  So extraction returns for such a response, with the
    body as the message (the empty message for an empty body). *)
Theorem extractMessage_text_plain `{GoLib} (resp : http.Response) :
  (http.Header resp !! "Content-Type" = None → mediaType resp = "text/plain") ∧
  (is_Some (mime_ParseMediaType
              (http.Header_Get (http.Header resp) "Content-Type")).2 →
     mediaType resp = "text/plain") ∧
  (∀ b, http.Body resp = Some b →
     vendorType (mediaType resp) = "text/plain" →
     extractMessage resp
       = Done (io.unread b, http.with_body resp (io.drained b))) ∧
  (∀ b, http.Body resp = Some b →
     http.Header resp !! "Content-Type" = None ∨
       is_Some (mime_ParseMediaType
                  (http.Header_Get (http.Header resp) "Content-Type")).2 →
     extractMessage resp
       = Done (io.unread b, http.with_body resp (io.drained b))).
Proof.
  set (ctype := http.Header_Get (http.Header resp) "Content-Type").
  assert (is_Some (mime_ParseMediaType ctype).2 → mediaType resp = "text/plain")
    as Hunparseable.
  { unfold mediaType. fold ctype.
    destruct (mime_ParseMediaType ctype) as [mtype err]. simpl.
    by intros [e ->]. }
  assert (http.Header resp !! "Content-Type" = None →
          mediaType resp = "text/plain") as Habsent.
  { intros Hnone. apply Hunparseable. unfold ctype, http.Header_Get.
    rewrite Hnone. apply mime_ParseMediaType_empty. }
  assert (∀ b, http.Body resp = Some b →
    vendorType (mediaType resp) = "text/plain" →
    extractMessage resp = Done (io.unread b, http.with_body resp (io.drained b)))
    as Hplain.
  { intros b Hb Hty. unfold extractMessage. by rewrite Hty, Hb. }
  split_and!; [done..|].
  intros b Hb Hor. apply Hplain; [done|].
  by destruct Hor as [->%Habsent| ->%Hunparseable].
Qed.

Lemma extractMessage_text_plain_witness :
  extractMessage (H := Ref.lib) (response 502 None ("  upstream " +:+ LF))
  = Done ("  upstream " +:+ LF,
          http.with_body (response 502 None ("  upstream " +:+ LF))
            (io.drained (fresh ("  upstream " +:+ LF)))).
Proof.
  apply (proj2 (proj2 (proj2
           (extractMessage_text_plain (H := Ref.lib)
              (response 502 None ("  upstream " +:+ LF)))))
           (fresh ("  upstream " +:+ LF))).
  - reflexivity.
  - left. reflexivity.
Defined.

(** C6. When the normalized content type is [text/html], the message is
    made from the body in this order: convert it to plain text, trim the
    white space at both ends, replace every run of newlines by ": ", and
    then replace every run of two or more white-space characters by one
    space (which is what the two calls of [ReplaceAllString] do).  The
    order of the last two steps matters: the other order gives another
    text. *)
Theorem extractMessage_text_html :
  (∀ (L : GoLib) resp b,
     vendorType (mediaType resp) = "text/html" →
     http.Body resp = Some b →
     extractMessage resp =
       Done (collapse_spaces
               (collapse_newlines
                  (strings.TrimSpace (html2text_HTML2Text (io.unread b)))),
             http.with_body resp (io.drained b))) ∧
  (∀ text, ∃ pre post,
     text = pre +:+ strings.TrimSpace text +:+ post ∧
     white_space pre ∧ white_space post ∧
     ∀ p, p ∈ strings.unicode_space →
       strings.HasPrefix (strings.TrimSpace text) p = false ∧
       strings.HasSuffix (strings.TrimSpace text) p = false) ∧
  (∀ text,
     regexp.ReplaceAllString nlre text ": " = collapse_newlines text ∧
     regexp.ReplaceAllString space text " " = collapse_spaces text) ∧
  collapse_spaces (collapse_newlines ("a" +:+ CRLF +:+ " b")) = "a: b" ∧
  collapse_newlines (collapse_spaces ("a" +:+ CRLF +:+ " b")) = "a b".
Proof.
  split_and!; [|apply TrimSpace_spec| |done..].
  - intros L resp b Hty Hb. unfold extractMessage. rewrite Hty, Hb. simpl.
    by rewrite ReplaceAllString_nlre, ReplaceAllString_space.
  - intros text. split.
    + apply ReplaceAllString_nlre.
    + apply ReplaceAllString_space.
Qed.

Lemma extractMessage_text_html_witness :
  extractMessage (H := Ref.lib)
    (response 404 (Some "text/html")
       ("<h1>Not Found</h1>" +:+ CRLF +:+ CRLF +:+ "  <p>gone  away</p> "))
  = Done ("Not Found: gone away",
          http.with_body
            (response 404 (Some "text/html")
               ("<h1>Not Found</h1>" +:+ CRLF +:+ CRLF +:+ "  <p>gone  away</p> "))
            (io.drained (fresh ("<h1>Not Found</h1>" +:+ CRLF +:+ CRLF
                                +:+ "  <p>gone  away</p> ")))).
Proof.
  apply (proj1 extractMessage_text_html Ref.lib
           (response 404 (Some "text/html")
              ("<h1>Not Found</h1>" +:+ CRLF +:+ CRLF +:+ "  <p>gone  away</p> "))
           (fresh ("<h1>Not Found</h1>" +:+ CRLF +:+ CRLF
                   +:+ "  <p>gone  away</p> "))).
  - vm_compute. reflexivity.
  - reflexivity.
Defined.

(** ** Instances of the theorems on concrete inputs *)

Lemma Error_three_way_rule_witness :
  Error {| StatusCode := 404; Message := "Error 404 (Not Found)!!1" |}
  = "Error 404 (Not Found)!!1".
Proof.
  apply (proj1 (proj1 Error_three_way_rule
           {| StatusCode := 404; Message := "Error 404 (Not Found)!!1" |})).
  split; apply Contains_spec; reflexivity.
Defined.

Lemma Error_without_reason_phrase_witness :
  Error {| StatusCode := 599; Message := "upstream said 599" |}
  = "upstream said 599".
Proof.
  apply (proj1 (proj1 Error_without_reason_phrase
           {| StatusCode := 599; Message := "upstream said 599" |} eq_refl)).
  apply Contains_spec. reflexivity.
Defined.

Lemma CheckStatusOneOf_accepts_iff_witness :
  CheckStatusOneOf (H := Ref.lib) (response 404 None "gone") [200; 404]
  = Done (None, response 404 None "gone").
Proof.
  apply (proj1 (proj2 (CheckStatusOneOf_accepts_iff (H := Ref.lib)
           (response 404 None "gone") [200; 404]))).
  apply (proj1 (oneOfChecker_spec [200; 404] (response 404 None "gone"))).
  reflexivity.
Defined.

Lemma Check_transport_error_first_witness :
  Check (H := Ref.lib) (Some (response 200 None "ok")) None
  = Done {| ret_resp := Some (response 200 None "ok"); ret_err := None;
            heap := Some (response 200 None "ok") |}.
Proof.
  apply (proj1 (proj2 (Check_transport_error_first (H := Ref.lib)
           (Some (response 200 None "ok")))) (response 200 None "ok") eq_refl).
Defined.

(** ** The test of the repository

    [TestJSONResponse] checks a response with status 500 and a JSON body,
    for a [GET] request whose URL is empty, and expects an error whose text
    contains "foo: bar". *)
Example TestJSONResponse :
  let resp :=
    {| http.StatusCode := 500;
       http.Header := {[ "Content-Type" := ["application/json"] ]};
       http.Body := Some (fresh (dq "{'foo': 'bar', 'baz': 'quux'}"));
       http.Request := Some {| http.Method := "GET"; http.URL := Some "" |} |} in
  let err := {| StatusCode := 500; Message := "baz: quux, foo: bar" |} in
  (∃ resp',
     CheckStatus (H := Ref.lib) resp
     = Done (Some (url_Error "GET" "" (StatusErr err)), resp')) ∧
  Error err = "500 Internal Server Error: baz: quux, foo: bar" ∧
  strings.Contains (Error err) "foo: bar" = true.
Proof. split; [eexists; vm_compute; reflexivity | done]. Qed.

(** * Further properties of the package *)

(** ** Rendering *)

Lemma substring_of_refl s : substring_of s s.
Proof. exists "", "". by rewrite app_nil_r_s. Qed.

Lemma substring_of_app_l sub s t : substring_of sub s → substring_of sub (s +:+ t).
Proof.
  intros (pre & post & ->). exists pre, (post +:+ t).
  by rewrite !app_assoc_s.
Qed.

Lemma substring_of_app_r sub s t : substring_of sub t → substring_of sub (s +:+ t).
Proof.
  intros (pre & post & ->). exists (s +:+ pre), post. by rewrite app_assoc_s.
Qed.

Lemma substring_of_nonempty sub s : sub ≠ "" → substring_of sub s → s ≠ "".
Proof.
  intros Hsub (pre & post & ->) Hnil.
  destruct pre; [|done]. by destruct sub.
Qed.

Lemma substring_of_empty s : substring_of "" s.
Proof. by exists "", s. Qed.

(** The second and third case of [Error]. *)
Lemma fallback_states (code text message : string) :
  let rendered :=
    if decide (message = "") then code +:+ " " +:+ text
    else code +:+ " " +:+ text +:+ ": " +:+ message in
  substring_of code rendered ∧ substring_of text rendered ∧
  substring_of message rendered.
Proof.
  simpl. destruct (decide (message = "")) as [->|_]; split_and!.
  - apply substring_of_app_l, substring_of_refl.
  - apply substring_of_app_r, substring_of_app_r, substring_of_refl.
  - apply substring_of_empty.
  - apply substring_of_app_l, substring_of_refl.
  - apply substring_of_app_r, substring_of_app_r, substring_of_app_l,
      substring_of_refl.
  - do 4 apply substring_of_app_r. apply substring_of_refl.
Qed.

Lemma Error_contains (err : StatusError) :
  substring_of (fmt.Sprintf_d (StatusCode err)) (Error err) ∧
  substring_of (http.StatusText (StatusCode err)) (Error err) ∧
  substring_of (Message err) (Error err).
Proof.
  unfold Error.
  destruct (strings.Contains _ (fmt.Sprintf_d _)) eqn:Hc;
    [destruct (strings.Contains _ (http.StatusText _)) eqn:Ht|]; simpl.
  - apply Contains_spec in Hc, Ht. auto using substring_of_refl.
  - apply fallback_states.
  - apply fallback_states.
Qed.

(** X1. The text of a [StatusError] always states the status code, the
    reason phrase and the message, and so is never empty. *)
Theorem Error_states_code_text_message (err : StatusError) :
  substring_of (fmt.Sprintf_d (StatusCode err)) (Error err) ∧
  substring_of (http.StatusText (StatusCode err)) (Error err) ∧
  substring_of (Message err) (Error err) ∧
  Error err ≠ "".
Proof.
  destruct (Error_contains err) as (Hcode & Htext & Hmsg).
  split_and!; [done..|].
  eapply substring_of_nonempty; [apply Sprintf_d_nonempty | done].
Qed.

(** X2. Rendering is idempotent: an error whose message is the text of an
    error with the same status renders as that text, with nothing added. *)
Theorem Error_idempotent (code : Z) (message : string) :
  Error {| StatusCode := code;
           Message := Error {| StatusCode := code; Message := message |} |}
  = Error {| StatusCode := code; Message := message |}.
Proof.
  destruct (Error_contains {| StatusCode := code; Message := message |})
    as (Hcode%Contains_spec & Htext%Contains_spec & _).
  simpl in Hcode, Htext. unfold Error at 1. simpl. by rewrite Hcode, Htext.
Qed.

(** X3. The earlier revision of [Error] agrees with the current one on
    every message but the empty one, where it left a dangling ": " behind
    the reason phrase. *)
Theorem draft_Error_differs_on_empty (err : StatusError) :
  (Message err ≠ "" → draft.Error err = Error err) ∧
  (Message err = "" → draft.Error err = Error err +:+ ": ").
Proof.
  unfold draft.Error, Error. split.
  - intros Hne. by rewrite (decide_False (P := Message err = "")).
  - intros ->. rewrite Contains_empty_s by apply Sprintf_d_nonempty. simpl.
    by rewrite !app_assoc_s.
Qed.

Lemma draft_Error_differs_on_empty_witness :
  draft.Error {| StatusCode := 503; Message := "" |} = "503 Service Unavailable: ".
Proof.
  apply (proj2 (draft_Error_differs_on_empty
                  {| StatusCode := 503; Message := "" |})).
  reflexivity.
Defined.

(** ** The checks *)

Section more_checks.
Context `{GoLib}.

Lemma DefaultResponseChecker_spec resp :
  DefaultResponseChecker resp = true ↔ 200 ≤ http.StatusCode resp < 300.
Proof. unfold DefaultResponseChecker. rewrite andb_true_iff. lia. Qed.

Lemma extractMessage_panics_iff resp :
  extractMessage resp = Panic ↔
  reads_body (vendorType (mediaType resp)) ∧ http.Body resp = None.
Proof.
  unfold extractMessage, reads_body.
  destruct (http.Body resp) as [b|]; simpl.
  - split; [|by intros [_ ?]].
    repeat case_decide; try done;
      by destruct (json_Decode (io.unread b)) as [[doc|err] n].
  - repeat case_decide; split; try done; tauto.
Qed.


Lemma CheckStatus_nil_inv resp resp' :
  CheckStatus resp = Done (None, resp') →
  resp' = resp ∧ 200 ≤ http.StatusCode resp < 300.
Proof.
  intros Hc. split; [by eapply CheckStatus_nil_error|].
  apply DefaultResponseChecker_spec.
  destruct (DefaultResponseChecker resp) eqn:Hd; [done|].
  apply CheckResponse_rejected in Hc as (? & ? & ? & _ & ?); done.
Qed.

Lemma extractMessage_plain resp b :
  http.Body resp = Some b →
  vendorType (mediaType resp) = "text/plain" →
  extractMessage resp = Done (io.unread b, http.with_body resp (io.drained b)).
Proof. intros Hb Hty. unfold extractMessage. by rewrite Hty, Hb. Qed.

End more_checks.

(** X4. [CheckStatus] returns a nil error exactly for the status codes
    from 200 to 299, and then it has not touched the response. *)
Theorem CheckStatus_nil_iff_2xx `{GoLib} (resp : http.Response) :
  ((∃ resp', CheckStatus resp = Done (None, resp'))
     ↔ 200 ≤ http.StatusCode resp < 300) ∧
  (∀ resp', CheckStatus resp = Done (None, resp') → resp' = resp).
Proof.
  split; [|intros resp' Hc; by apply CheckStatus_nil_inv in Hc as [? _]].
  split.
  - intros [resp' Hc]. by apply CheckStatus_nil_inv in Hc as [_ ?].
  - intros Hd%DefaultResponseChecker_spec. exists resp.
    by apply CheckResponse_accepted.
Qed.

(** X5. The error for a rejected response carries the status code of the
    response and the extracted message, under the method and the URL of
    the request; a response without a request gets the two placeholders
    instead. *)
Theorem CheckResponse_request_context `{GoLib}
    (resp : http.Response) (checker : ResponseChecker) err resp' :
  checker resp = false →
  CheckResponse resp checker = Done (err, resp') →
  ∃ msg,
    extractMessage resp = Done (msg, resp') ∧
    match http.Request resp with
    | None =>
        err = Some (url_Error "<unknown method>" "<unknown request>"
                (StatusErr {| StatusCode := http.StatusCode resp;
                              Message := msg |}))
    | Some req =>
        ∃ url, http.URL req = Some url ∧
          err = Some (url_Error (http.Method req) url
                  (StatusErr {| StatusCode := http.StatusCode resp;
                                Message := msg |}))
    end.
Proof.
  unfold CheckResponse. intros -> Hc.
  destruct (extractMessage resp) as [[msg r]|] eqn:Hex; simplify_eq/=.
  apply extractMessage_frame in Hex as Hfr.
  destruct Hfr as (Hcode & _ & Hreq & _). rewrite Hcode, Hreq in Hc.
  exists msg. destruct (http.Request resp) as [[m [u|]]|]; simplify_eq/=;
    [split; [done|]; by exists u | done].
Qed.

Lemma CheckResponse_request_context_witness :
  ∃ msg,
    extractMessage (H := Ref.lib)
      {| http.StatusCode := 502; http.Header := ∅;
         http.Body := Some (fresh "bad gateway"); http.Request := None |}
    = Done (msg, http.with_body
                   {| http.StatusCode := 502; http.Header := ∅;
                      http.Body := Some (fresh "bad gateway");
                      http.Request := None |}
                   (io.drained (fresh "bad gateway"))) ∧
    Some (url_Error "<unknown method>" "<unknown request>"
            (StatusErr {| StatusCode := 502; Message := "bad gateway" |}))
    = Some (url_Error "<unknown method>" "<unknown request>"
              (StatusErr {| StatusCode := 502; Message := msg |})).
Proof.
  apply (CheckResponse_request_context (H := Ref.lib)
           {| http.StatusCode := 502; http.Header := ∅;
              http.Body := Some (fresh "bad gateway"); http.Request := None |}
           DefaultResponseChecker).
  - reflexivity.
  - vm_compute. reflexivity.
Defined.

(** X6. [CheckResponse] panics in two situations only, both for a response
    that the checker rejects: the body is nil although the media type is
    one whose body is read, or the request is there but has no URL. *)
Theorem CheckResponse_panics_iff `{GoLib}
    (resp : http.Response) (checker : ResponseChecker) :
  CheckResponse resp checker = Panic ↔
  checker resp = false ∧
  ((reads_body (vendorType (mediaType resp)) ∧ http.Body resp = None) ∨
   ∃ req, http.Request resp = Some req ∧ http.URL req = None).
Proof.
  rewrite <-extractMessage_panics_iff. unfold CheckResponse.
  destruct (checker resp); [split; [done | by intros [? _]]|].
  destruct (extractMessage resp) as [[msg r]|] eqn:Hex; simpl;
    [|split; [by auto | done]].
  apply extractMessage_frame in Hex as (_ & _ & -> & _).
  destruct (http.Request resp) as [[m [u|]]|]; simpl.
  - split; [done|]. intros [_ [?|(req & ? & ?)]]; by simplify_eq/=.
  - split; [|done]. intros _. split; [done|]. right. by eexists.
  - split; [done|]. intros [_ [?|(req & ? & ?)]]; by simplify_eq/=.
Qed.



(** X8. What [Check] returns is a response or an error, never both and
    never neither: with a nil error comes the response that was passed,
    which is not nil, has a status code from 200 to 299 and is untouched;
    with an error comes a nil response. *)
Theorem Check_returns_response_or_error `{GoLib}
    (resp : option http.Response) (err : option error) (res : CheckResult) :
  Check resp err = Done res →
  (ret_err res = None ∧ err = None ∧
   ∃ r, resp = Some r ∧ ret_resp res = Some r ∧ heap res = Some r ∧
        200 ≤ http.StatusCode r < 300) ∨
  (is_Some (ret_err res) ∧ ret_resp res = None).
Proof.
  destruct err as [e|].
  { rewrite Check_transport. intros [= <-]. right. by split; [eexists|]. }
  destruct resp as [r|]; [|by rewrite Check_nil_nil].
  rewrite Check_status.
  destruct (CheckStatus r) as [[[e|] r']|] eqn:Hcs; [| |done]; intros [= <-].
  - right. by split; [eexists|].
  - left. apply CheckStatus_nil_inv in Hcs as [-> Hcode]. simpl.
    split_and!; [done..|]. by exists r.
Qed.

Lemma Check_returns_response_or_error_witness :
  let resp := Some (response 204 None "") in
  let res := {| ret_resp := resp; ret_err := None; heap := resp |} in
  (ret_err res = None ∧ @None error = None ∧
   ∃ r, resp = Some r ∧ ret_resp res = Some r ∧ heap res = Some r ∧
        200 ≤ http.StatusCode r < 300) ∨
  (is_Some (ret_err res) ∧ ret_resp res = None).
Proof.
  apply (Check_returns_response_or_error (H := Ref.lib)
           (Some (response 204 None "")) None
           {| ret_resp := Some (response 204 None ""); ret_err := None;
              heap := Some (response 204 None "") |}).
  reflexivity.
Defined.

(** X9. [CheckStatus] is [CheckStatusOneOf] for the status codes from 200
    to 299: given any list that holds exactly these codes, the two return
    the same error and leave the response in the same state. *)
Theorem CheckStatusOneOf_2xx_is_CheckStatus `{GoLib}
    (resp : http.Response) (codes : list Z) :
  (∀ code, code ∈ codes ↔ 200 ≤ code < 300) →
  CheckStatusOneOf resp codes = CheckStatus resp.
Proof.
  intros Hcodes. unfold CheckStatusOneOf, CheckStatus, CheckResponse.
  assert (oneOfChecker codes resp = DefaultResponseChecker resp) as ->; [|done].
  apply eq_true_iff_eq.
  by rewrite oneOfChecker_spec, DefaultResponseChecker_spec, Hcodes.
Qed.

Lemma CheckStatusOneOf_2xx_is_CheckStatus_witness :
  CheckStatusOneOf (H := Ref.lib) (response 404 None "gone") (seqZ 200 100)
  = CheckStatus (H := Ref.lib) (response 404 None "gone").
Proof.
  apply (CheckStatusOneOf_2xx_is_CheckStatus (H := Ref.lib)
           (response 404 None "gone") (seqZ 200 100)).
  intros code. rewrite elem_of_seqZ. lia.
Defined.

(** X10. A plain-text body that already states the status code and the
    reason phrase becomes the text of the error as it is, with nothing
    put before it. *)
Theorem plain_body_stating_status_is_error_text `{GoLib}
    (resp : http.Response) (checker : ResponseChecker) b err resp' :
  http.Body resp = Some b →
  vendorType (mediaType resp) = "text/plain" →
  substring_of (fmt.Sprintf_d (http.StatusCode resp)) (io.unread b) →
  substring_of (http.StatusText (http.StatusCode resp)) (io.unread b) →
  checker resp = false →
  CheckResponse resp checker = Done (err, resp') →
  ∃ op url cause,
    err = Some (url_Error op url (StatusErr cause)) ∧
    StatusCode cause = http.StatusCode resp ∧
    Error cause = io.unread b.
Proof.
  intros Hb Hty Hcode%Contains_spec Htext%Contains_spec Hrej Hc.
  apply CheckResponse_rejected in Hc as (op & url & msg & Hex & ->); [|done].
  rewrite (extractMessage_plain resp b Hb Hty) in Hex. injection Hex as <- _.
  eexists op, url, _. split_and!; [done..|].
  unfold Error. cbn [StatusCode Message]. by rewrite Hcode, Htext.
Qed.

Lemma plain_body_stating_status_is_error_text_witness :
  ∃ op url cause,
    Some (url_Error "GET" "http://x/y"
            (StatusErr {| StatusCode := 404;
                          Message := "Error 404 (Not Found)!!1" |}))
    = Some (url_Error op url (StatusErr cause)) ∧
    StatusCode cause = 404 ∧
    Error cause = "Error 404 (Not Found)!!1".
Proof.
  apply (plain_body_stating_status_is_error_text (H := Ref.lib)
           (response 404 (Some "text/plain") "Error 404 (Not Found)!!1")
           DefaultResponseChecker (fresh "Error 404 (Not Found)!!1") _
           (http.with_body
              (response 404 (Some "text/plain") "Error 404 (Not Found)!!1")
              (io.drained (fresh "Error 404 (Not Found)!!1")))).
  - reflexivity.
  - vm_compute. reflexivity.
  - apply Contains_spec. reflexivity.
  - apply Contains_spec. reflexivity.
  - reflexivity.
  - vm_compute. reflexivity.
Defined.



(** ** The extractor *)

Lemma IndexRune_Some_inv (c : ascii) s i :
  strings.IndexRune s c = Some i →
  ∃ pre post,
    s = pre +:+ String c post ∧ String.length pre = i ∧
    ¬ substring_of (String c "") pre.
Proof.
  revert i. induction s as [|c' s IH]; intros i; simpl; [done|].
  destruct (decide (c' = c)) as [->|Hne].
  - intros [= <-]. exists "", s. split_and!; [done..|].
    intros Hsub. by eapply (substring_of_nonempty (String c "")).
  - destruct (strings.IndexRune s c) as [j|]; [|done]. intros [= <-].
    destruct (IH j eq_refl) as (pre & post & -> & <- & Hnot).
    exists (String c' pre), post. split_and!; [done..|].
    intros ([|c0 pre0] & post0 & Heq).
    + injection Heq as ? _. done.
    + injection Heq as _ Heq. apply Hnot. by exists pre0, post0.
Qed.

(** X12. Which media types reach which branch: the JSON branch is for
    [application/json] and for the vendor types whose text after the first
    '+' is [json]; the two text branches are for [text/plain] and
    [text/html] themselves, so a vendor type is never read as text. *)
Theorem vendorType_branches (mtype : string) :
  (vendorType mtype = "application/json" ↔
     mtype = "application/json" ∨
     strings.HasPrefix mtype "application/vnd." = true ∧
       ∃ pre, mtype = pre +:+ "+json" ∧ ¬ substring_of "+" pre) ∧
  (vendorType mtype = "text/plain" ↔ mtype = "text/plain") ∧
  (vendorType mtype = "text/html" ↔ mtype = "text/html").
Proof.
  unfold vendorType.
  destruct (strings.HasPrefix mtype "application/vnd.") eqn:Hpre.
  - destruct (strings.IndexRune mtype "+") as [i|] eqn:Hidx.
    + apply IndexRune_Some_inv in Hidx as (pre & post & -> & <- & Hnot).
      rewrite slice_from_after.
      split_and!;
        [|split; [intros H1; vm_compute in H1; discriminate
                 |intros H1; rewrite H1 in Hpre; discriminate]..].
      split.
      * intros Heq. apply (inj (String.app "application/") post "json") in Heq.
        subst post. right. split; [done|]. by exists pre.
      * intros [Heq|[_ (pre' & Heq & Hnot')]].
        { rewrite Heq in Hpre. done. }
        assert (strings.IndexRune (pre +:+ String "+" post) "+"
                = Some (String.length pre)) as H1 by by apply IndexRune_first.
        rewrite Heq in H1.
        change (pre' +:+ "+json") with (pre' +:+ String "+"%char "json") in *.
        rewrite IndexRune_first in H1 by done. injection H1 as Hlen.
        apply (f_equal (strings.slice_from (String.length pre + 1))) in Heq.
        rewrite slice_from_after, <-Hlen, slice_from_after in Heq. by subst.
    + split_and!; [|split; intros ->; done..]. split; [by left|].
      intros [?|[_ (pre & -> & _)]]; [done|].
      change (pre +:+ "+json") with (pre +:+ String "+"%char "json") in Hidx.
      exfalso. clear Hpre. induction pre as [|c pre IH]; simpl in Hidx; [done|].
      destruct (decide (c = "+"%char)); [done|].
      destruct (strings.IndexRune _ _); [done|]. by apply IH.
  - split_and!; [|done..]. split; [by left|].
    intros [?|[? _]]; done.
Qed.

(** *** The message of an HTML body *)

Lemma all_bytes_app test s t :
  all_bytes test (s +:+ t) = all_bytes test s && all_bytes test t.
Proof.
  induction s as [|c s IH]; [done|].
  rewrite app_cons_s. simpl. by rewrite IH, andb_assoc.
Qed.

Lemma all_bytes_has_byte c t :
  all_bytes (λ c', negb (bool_decide (c' = c))) t = true → ¬ has_byte c t.
Proof.
  intros Hall (pre & post & ->). rewrite all_bytes_app in Hall. simpl in Hall.
  rewrite bool_decide_eq_true_2 in Hall by done.
  by rewrite andb_false_r in Hall.
Qed.

Lemma adjacent_spaces_b_complete t :
  adjacent_spaces t → adjacent_spaces_b t = true.
Proof.
  intros (pre & c1 & c2 & post & -> & H1 & H2).
  induction pre as [|c pre IH].
  - simpl. by rewrite H1, H2.
  - rewrite app_cons_s. simpl. by rewrite IH, orb_true_r.
Qed.

Lemma collapse_newlines_no_LF in_run s :
  all_bytes (λ c, negb (bool_decide (c = "010"%char)))
    (collapse_newlines_go in_run s) = true.
Proof.
  revert in_run. induction s as [s IH] using string_strong_ind. intros in_run.
  destruct s as [|c s]; [done|]. cbn [collapse_newlines_go].
  destruct (decide (c = "010"%char)) as [->|Hc].
  { rewrite all_bytes_app, IH by (simpl; lia). by destruct in_run. }
  destruct s as [|c' s].
  { simpl. by rewrite bool_decide_eq_false_2. }
  destruct (decide (_ ∧ _)).
  - rewrite all_bytes_app, IH by (simpl; lia). by destruct in_run.
  - cbn [all_bytes]. rewrite IH by (simpl; lia).
    by rewrite bool_decide_eq_false_2.
Qed.

Lemma collapse_spaces_all_bytes test in_run s :
  test " "%char = true →
  all_bytes test s = true → all_bytes test (collapse_spaces_go in_run s) = true.
Proof.
  intros Hsp. revert in_run. induction s as [|c s IH]; intros in_run; [done|].
  simpl. intros [Hc Hs]%andb_true_iff.
  destruct (regexp.perl_space c).
  - destruct in_run; [auto|]. destruct s as [|c' s]; [simpl; by rewrite Hc|].
    destruct (regexp.perl_space c').
    + change (" " +:+ ?t) with (String " "%char t). cbn [all_bytes].
      by rewrite Hsp, IH.
    + cbn [all_bytes]. by rewrite Hc, IH.
  - cbn [all_bytes]. by rewrite Hc, IH.
Qed.

Lemma collapse_spaces_no_adjacent s :
  adjacent_spaces_b (collapse_spaces_go false s) = false ∧
  adjacent_spaces_b (collapse_spaces_go true s) = false ∧
  head_space (collapse_spaces_go true s) = false ∧
  (head_space s = false → head_space (collapse_spaces_go false s) = false).
Proof.
  induction s as [|c s (IH1 & IH2 & IH3 & IH4)]; [done|].
  cbn [collapse_spaces_go head_space].
  destruct (regexp.perl_space c) eqn:Hc.
  - split_and!; [|done..].
    destruct s as [|c' s]; [simpl; by rewrite Hc|].
    destruct (regexp.perl_space c') eqn:Hc'.
    + change (" " +:+ ?t) with (String " "%char t). cbn [adjacent_spaces_b].
      by rewrite IH3, IH2.
    + cbn [adjacent_spaces_b]. rewrite IH1, IH4, andb_false_r; done.
  - cbn [adjacent_spaces_b head_space]. rewrite Hc, IH1. done.
Qed.

(** X13. The message made from an HTML body is a single line with single
    spacing: it holds no line feed, and no two white-space characters next
    to each other. *)
Theorem html_message_single_line `{GoLib}
    (resp : http.Response) b msg resp' :
  vendorType (mediaType resp) = "text/html" →
  http.Body resp = Some b →
  extractMessage resp = Done (msg, resp') →
  ¬ has_byte "010" msg ∧ ¬ adjacent_spaces msg.
Proof.
  intros Hty Hb. unfold extractMessage. rewrite Hty, Hb. simpl. intros [= <- _].
  rewrite ReplaceAllString_nlre, ReplaceAllString_space. split.
  - apply all_bytes_has_byte, collapse_spaces_all_bytes; [done|].
    apply collapse_newlines_no_LF.
  - intros Hadj%adjacent_spaces_b_complete.
    by rewrite (proj1 (collapse_spaces_no_adjacent _)) in Hadj.
Qed.

Lemma html_message_single_line_witness :
  ¬ has_byte "010" "Not Found: gone away" ∧
  ¬ adjacent_spaces "Not Found: gone away".
Proof.
  apply (html_message_single_line (H := Ref.lib)
           (response 404 (Some "text/html")
              ("<h1>Not Found</h1>" +:+ CRLF +:+ CRLF +:+ "  <p>gone  away</p> "))
           (fresh ("<h1>Not Found</h1>" +:+ CRLF +:+ CRLF
                   +:+ "  <p>gone  away</p> "))
           "Not Found: gone away"
           (http.with_body
              (response 404 (Some "text/html")
                 ("<h1>Not Found</h1>" +:+ CRLF +:+ CRLF +:+ "  <p>gone  away</p> "))
              (io.drained (fresh ("<h1>Not Found</h1>" +:+ CRLF +:+ CRLF
                                  +:+ "  <p>gone  away</p> "))))).
  - vm_compute. reflexivity.
  - reflexivity.
  - vm_compute. reflexivity.
Defined.

(** *** The message of a JSON body *)

Lemma substring_of_trans a b c :
  substring_of a b → substring_of b c → substring_of a c.
Proof.
  intros (p1 & q1 & ->) (p2 & q2 & ->). exists (p2 +:+ p1), (q1 +:+ q2).
  by rewrite !app_assoc_s.
Qed.

Lemma Join_contains (elems : list string) sep e :
  e ∈ elems → substring_of e (strings.Join elems sep).
Proof.
  induction elems as [|x elems IH]; [by intros ?%elem_of_nil|].
  intros [->|Hin]%elem_of_cons; destruct elems as [|y elems]; simpl.
  - apply substring_of_refl.
  - apply substring_of_app_l, substring_of_refl.
  - by apply elem_of_nil in Hin.
  - do 2 apply substring_of_app_r. by apply IH.
Qed.

(** X14. Every field of a decoded JSON object is in the message, as
    "key: value", and so it is in the text of the error, whatever the
    status code: what the test of the repository checks for one field. *)
Theorem json_fields_are_in_error_text `{GoLib}
    (resp : http.Response) b doc n k v msg resp' (code : Z) :
  vendorType (mediaType resp) = "application/json" →
  http.Body resp = Some b →
  json_Decode (io.unread b) = (DecodeOk doc, n) →
  doc !! k = Some v →
  extractMessage resp = Done (msg, resp') →
  substring_of (k +:+ ": " +:+ fmt_Sprintf_v v) msg ∧
  substring_of (k +:+ ": " +:+ fmt_Sprintf_v v)
    (Error {| StatusCode := code; Message := msg |}).
Proof.
  intros Hty Hb Hdec Hk.
  rewrite (extractMessage_json_ok resp b doc n Hty Hb Hdec). intros [= <- _].
  assert (substring_of (k +:+ ": " +:+ fmt_Sprintf_v v)
            (strings.Join
               ((λ k, k +:+ ": " +:+ index_v doc k)
                  <$> sort.Strings (map_range doc)) ", ")) as Hmsg.
  { apply Join_contains, list_elem_of_fmap. exists k. split.
    - unfold index_v. by rewrite Hk.
    - unfold sort.Strings. rewrite merge_sort_Permutation, map_range_keys.
      apply list_elem_of_fmap. exists (k, v). split; [done|].
      by apply elem_of_map_to_list. }
  split; [done|]. eapply substring_of_trans; [done|].
  apply (Error_contains {| StatusCode := code; Message := _ |}).
Qed.

Lemma json_fields_are_in_error_text_witness :
  substring_of ("foo" +:+ ": " +:+ "bar") "baz: quux, foo: bar" ∧
  substring_of ("foo" +:+ ": " +:+ "bar")
    (Error {| StatusCode := 500; Message := "baz: quux, foo: bar" |}).
Proof.
  apply (json_fields_are_in_error_text (H := Ref.lib)
           (response 500 (Some "application/json")
              (dq "{'foo': 'bar', 'baz': 'quux'}"))
           (fresh (dq "{'foo': 'bar', 'baz': 'quux'}"))
           ({[ "foo" := Ref.VString "bar"; "baz" := Ref.VString "quux" ]})
           29%nat "foo" (Ref.VString "bar") "baz: quux, foo: bar"
           (http.with_body
              (response 500 (Some "application/json")
                 (dq "{'foo': 'bar', 'baz': 'quux'}"))
              (io.consume (fresh (dq "{'foo': 'bar', 'baz': 'quux'}")) 29))
           500).
  - vm_compute. reflexivity.
  - reflexivity.
  - vm_compute. reflexivity.
  - vm_compute. reflexivity.
  - vm_compute. reflexivity.
Defined.

Lemma last_byte_app s t :
  is_Some (last_byte t) → last_byte (s +:+ t) = last_byte t.
Proof.
  intros [c Hc]. induction s as [|a s IH]; [done|].
  rewrite app_cons_s. simpl. by rewrite IH, Hc.
Qed.

Lemma last_byte_snoc s c : last_byte (s +:+ String c "") = Some c.
Proof. by rewrite last_byte_app by by eexists. Qed.

Lemma last_byte_Some_snoc t c :
  last_byte t = Some c → ∃ s, t = s +:+ String c "".
Proof.
  induction t as [|a t IH]; [done|]. simpl.
  destruct (last_byte t) as [c'|] eqn:Hl.
  - intros [= ->]. destruct (IH eq_refl) as [s ->]. by exists (String a s).
  - intros [= ->]. destruct t; [by exists "" | simpl in Hl].
    by destruct (last_byte t).
Qed.

Lemma perl_space_unicode_space c :
  regexp.perl_space c = true → String c "" ∈ strings.unicode_space.
Proof.
  intros Hc.
  assert (c = "009" ∨ c = "010" ∨ c = "012" ∨ c = "013" ∨ c = " ")%char
    as Hcases.
  { destruct c as [[] [] [] [] [] [] [] []]; try discriminate Hc; auto 10. }
  unfold strings.unicode_space.
  destruct Hcases as [->|[->|[->|[->| ->]]]]; cbn;
    repeat (first [by apply list_elem_of_here | apply list_elem_of_further]).
Qed.

(** What [strings.TrimSpace] returns neither begins nor ends with a
    character of the class [\s]. *)
Lemma TrimSpace_ends s :
  head_space (strings.TrimSpace s) = false ∧
  ∀ c, last_byte (strings.TrimSpace s) = Some c → regexp.perl_space c = false.
Proof.
  destruct (TrimSpace_spec s) as (_ & _ & _ & _ & _ & Hno). split.
  - destruct (strings.TrimSpace s) as [|c t] eqn:Ht; [done|]. simpl.
    apply not_true_is_false. intros Hc%perl_space_unicode_space.
    destruct (Hno _ Hc) as [Hpre _]. simpl in Hpre.
    by rewrite decide_True in Hpre.
  - intros c [t Ht]%last_byte_Some_snoc.
    apply not_true_is_false. intros Hc%perl_space_unicode_space.
    destruct (Hno _ Hc) as [_ Hsuf]. unfold strings.HasSuffix in Hsuf.
    rewrite Ht, rev_app_distr_s in Hsuf.
    change (String.rev (String c "")) with (String c "") in Hsuf.
    rewrite app_cons_s in Hsuf. simpl in Hsuf.
    by rewrite decide_True in Hsuf.
Qed.

Lemma collapse_newlines_head in_run s :
  head_space s = false →
  head_space (collapse_newlines_go in_run s) = false.
Proof.
  destruct s as [|c s]; [done|]. simpl. intros Hc.
  destruct (decide (c = "010"%char)) as [->|_]; [done|].
  destruct s as [|c' s]; [done|].
  destruct (decide (_ ∧ _)) as [[-> _]|_]; done.
Qed.

Lemma collapse_newlines_last in_run s c :
  last_byte s = Some c → regexp.perl_space c = false →
  last_byte (collapse_newlines_go in_run s) = Some c.
Proof.
  intros Hl Hc. revert in_run Hl.
  induction s as [s IH] using string_strong_ind. intros in_run Hl.
  destruct s as [|a s]; [done|]. cbn [collapse_newlines_go].
  assert (∀ t, last_byte t = None → t = "") as Hnone.
  { intros [|? t]; [done|]. simpl. by destruct (last_byte t). }
  simpl in Hl.
  destruct (decide (a = "010"%char)) as [->|Ha].
  { destruct (last_byte s) as [c'|] eqn:Hs; [|by simplify_eq].
    injection Hl as ->. rewrite last_byte_app; [by apply IH; [simpl; lia|]|].
    rewrite IH; [by eexists|simpl; lia|done]. }
  destruct s as [|a' s]; [done|].
  destruct (decide (_ ∧ _)) as [[-> ->]|_].
  - simpl in Hl. destruct (last_byte s) as [c'|] eqn:Hs; [|by simplify_eq].
    injection Hl as ->. rewrite last_byte_app; [by apply IH; [simpl; lia|]|].
    rewrite IH; [by eexists|simpl; lia|done].
  - destruct (last_byte (String a' s)) as [c'|] eqn:Hs.
    + injection Hl as ->. cbn [last_byte].
      by rewrite (IH (String a' s)) by (simpl; lia || done).
    + by apply Hnone in Hs.
Qed.

Lemma collapse_spaces_last in_run s c :
  last_byte s = Some c → regexp.perl_space c = false →
  last_byte (collapse_spaces_go in_run s) = Some c.
Proof.
  intros Hl Hc. revert in_run Hl.
  induction s as [|a s IH]; intros in_run Hl; [done|].
  simpl in Hl. cbn [collapse_spaces_go].
  destruct (last_byte s) as [c'|] eqn:Hs.
  - injection Hl as ->.
    destruct (regexp.perl_space a).
    + destruct in_run; [by apply IH|].
      destruct s as [|a' s]; [done|].
      destruct (regexp.perl_space a').
      * rewrite last_byte_app; [by apply IH|]. rewrite IH; [by eexists|done].
      * cbn [last_byte]. by rewrite IH.
    + cbn [last_byte]. by rewrite IH.
  - injection Hl as ->. rewrite Hc.
    destruct s as [|a' s]; [done|]. simpl in Hs. by destruct (last_byte s).
Qed.

(** X15. The message made from an HTML body neither begins nor ends with
    a white-space character. *)
Theorem html_message_trimmed `{GoLib}
    (resp : http.Response) b msg resp' :
  vendorType (mediaType resp) = "text/html" →
  http.Body resp = Some b →
  extractMessage resp = Done (msg, resp') →
  (∀ c rest, msg = String c rest → regexp.perl_space c = false) ∧
  (∀ front c, msg = front +:+ String c "" → regexp.perl_space c = false).
Proof.
  intros Hty Hb. unfold extractMessage. rewrite Hty, Hb. simpl. intros [= <- _].
  rewrite ReplaceAllString_nlre, ReplaceAllString_space.
  set (text := strings.TrimSpace _).
  destruct (TrimSpace_ends (html2text_HTML2Text (io.unread b))) as [Hhead Hlast].
  fold text in Hhead, Hlast. split.
  - intros c rest Heq.
    pose proof (proj2 (proj2 (proj2 (collapse_spaces_no_adjacent
                  (collapse_newlines text))))) as Hh.
    unfold collapse_spaces in Heq. rewrite Heq in Hh. apply Hh.
    by apply collapse_newlines_head.
  - intros front c Heq. destruct (last_byte text) as [c'|] eqn:Hl.
    + pose proof (Hlast c' eq_refl) as Hc'.
      assert (last_byte (collapse_spaces (collapse_newlines text)) = Some c')
        as Hl'.
      { apply collapse_spaces_last; [|done].
        by apply collapse_newlines_last. }
      rewrite Heq, last_byte_snoc in Hl'. by injection Hl' as ->.
    + destruct text; [|simpl in Hl; by destruct (last_byte text)].
      by destruct front.
Qed.

Lemma html_message_trimmed_witness :
  (∀ c rest, "Not Found: gone away" = String c rest →
             regexp.perl_space c = false) ∧
  (∀ front c, "Not Found: gone away" = front +:+ String c "" →
              regexp.perl_space c = false).
Proof.
  apply (html_message_trimmed (H := Ref.lib)
           (response 404 (Some "text/html")
              ("<h1>Not Found</h1>" +:+ CRLF +:+ CRLF +:+ "  <p>gone  away</p> "))
           (fresh ("<h1>Not Found</h1>" +:+ CRLF +:+ CRLF
                   +:+ "  <p>gone  away</p> "))
           "Not Found: gone away"
           (http.with_body
              (response 404 (Some "text/html")
                 ("<h1>Not Found</h1>" +:+ CRLF +:+ CRLF +:+ "  <p>gone  away</p> "))
              (io.drained (fresh ("<h1>Not Found</h1>" +:+ CRLF +:+ CRLF
                                  +:+ "  <p>gone  away</p> "))))).
  - vm_compute. reflexivity.
  - reflexivity.
  - vm_compute. reflexivity.
Defined.
